(** * A two-layer perceptron in numpy: forward pass, backpropagation, data set

    Shallow embedding of [neural_networks.py]: the activation library, the
    [MLP] class ([__init__], [forward], [backward]) and [generate_data].

    - A numpy array of two dimensions is a record of its shape and its
      elements in row-major order; numpy's shape checks (matrix product,
      broadcasting, in-place subtraction) are written out and raise
      [ValueError].
    - The element arithmetic is an interface, [Float64Ops]; the program is
      written once over it.  Two instances are used: the real numbers (exact
      arithmetic) and IEEE 754 binary64 (the kernel's primitive floats).
    - A method of the class is a function from the instance to an outcome
      (an exception or a value) and the instance afterwards, so that what an
      exception leaves behind can be stated.
    - numpy's global random generator is an interface, [RandomState]. *)

From Stdlib Require Import Reals Lra Lia List ZArith String Floats Uint63.
From stdpp Require Import base gmap strings.
Import ListNotations.

Set Implicit Arguments.

(** ** Element arithmetic *)

Class Float64Ops (F : Type) : Type := {
  f_zero : F;                      (* 0.0 *)
  f_one : F;                       (* 1.0 *)
  f_tenth : F;                     (* the literal 0.1 *)
  f_add : F -> F -> F;
  f_sub : F -> F -> F;
  f_mul : F -> F -> F;
  f_div : F -> F -> F;
  f_neg : F -> F;
  f_pow : F -> nat -> F;           (* x ** n *)
  f_exp : F -> F;                  (* np.exp *)
  f_tanh : F -> F;                 (* np.tanh *)
  f_maximum : F -> F -> F;         (* np.maximum *)
  f_gt : F -> F -> bool;           (* x > y *)
  f_of_nat : nat -> F              (* an int operand converted to float *)
}.

(** ** Exceptions and outcomes *)

Inductive exn : Type := KeyError | AttributeError | ValueError.

Definition outcome (A : Type) : Type := (exn + A)%type.

(** A computation over a mutable store [S]: the outcome and the store
    afterwards (an exception keeps the writes made before it). *)
Definition M (S A : Type) : Type := S -> outcome A * S.

Definition ret {S A} (a : A) : M S A := fun s => (inr a, s).
Definition raise {S A} (e : exn) : M S A := fun s => (inl e, s).
Definition bind {S A B} (c : M S A) (k : A -> M S B) : M S B :=
  fun s => match c s with
           | (inr a, s') => k a s'
           | (inl e, s') => (inl e, s')
           end.
Definition get {S} : M S S := fun s => (inr s, s).
Definition put {S} (s : S) : M S unit := fun _ => (inr tt, s).
Definition modify {S} (f : S -> S) : M S unit := fun s => (inr tt, f s).
Definition lift {S A} (o : outcome A) : M S A := fun s => (o, s).

Declare Scope py_scope.
Delimit Scope py_scope with py.
Notation "'let*' x ':=' c 'in' k" := (bind c (fun x => k))
  (at level 10, x name, c at level 100, k at level 200) : py_scope.
Notation "'do' c 'then' k" := (bind c (fun _ => k))
  (at level 10, c at level 100, k at level 200) : py_scope.

(** ** Arrays of two dimensions *)

Record ndarray (A : Type) : Type := NDArray {
  nrows : nat;
  ncols : nat;
  data : list A                    (* row-major, nrows * ncols elements *)
}.
Arguments NDArray {A} _ _ _.

Definition shape {A} (a : ndarray A) : nat * nat := (nrows a, ncols a).

(** [a[i, j]] *)
Definition item {A} (d : A) (a : ndarray A) (i j : nat) : A :=
  nth (i * ncols a + j) (data a) d.

Notation "a .[ i , j ]" := (item f_zero a i j)
  (at level 1, left associativity, format "a .[ i ,  j ]").

Definition tabulate {A} (r c : nat) (f : nat -> nat -> A) : ndarray A :=
  NDArray r c (flat_map (fun i => map (f i) (seq 0 c)) (seq 0 r)).

Definition amap {A B} (f : A -> B) (a : ndarray A) : ndarray B :=
  NDArray (nrows a) (ncols a) (map f (data a)).

Definition wf {A} (a : ndarray A) : Prop :=
  length (data a) = nrows a * ncols a.

Definition shape_eqb (s t : nat * nat) : bool :=
  (fst s =? fst t) && (snd s =? snd t).

(** numpy's broadcasting rule for one axis: equal, or one of them is 1. *)
Definition broadcast_dim (m n : nat) : option nat :=
  if m =? n then Some m
  else if m =? 1 then Some n
  else if n =? 1 then Some m
  else None.

Definition bidx (dim i : nat) : nat := if dim =? 1 then 0 else i.

Section Numpy.
Context {F : Type} `{Float64Ops F}.

Definition zeros (r c : nat) : ndarray F := tabulate r c (fun _ _ => f_zero).

(** An elementwise binary operation on two arrays, with broadcasting. *)
Definition broadcast2 (op : F -> F -> F) (a b : ndarray F)
  : outcome (ndarray F) :=
  match broadcast_dim (nrows a) (nrows b), broadcast_dim (ncols a) (ncols b) with
  | Some r, Some c =>
      inr (tabulate r c (fun i j =>
             op (item f_zero a (bidx (nrows a) i) (bidx (ncols a) j))
                (item f_zero b (bidx (nrows b) i) (bidx (ncols b) j))))
  | _, _ => inl ValueError
  end.

Definition add := broadcast2 f_add.
Definition sub := broadcast2 f_sub.
Definition mul := broadcast2 f_mul.

(** [a -= b]: the result must have the shape of [a]. *)
Definition isub (a b : ndarray F) : outcome (ndarray F) :=
  match sub a b with
  | inr r => if shape_eqb (shape r) (shape a) then inr r else inl ValueError
  | inl e => inl e
  end.

(** [x * a], [a / n], [x - a], [a ** n] with a scalar operand. *)
Definition scale (x : F) (a : ndarray F) : ndarray F := amap (f_mul x) a.
Definition times (a : ndarray F) (x : F) : ndarray F :=
  amap (fun v => f_mul v x) a.
Definition divn (a : ndarray F) (n : nat) : ndarray F :=
  amap (fun v => f_div v (f_of_nat n)) a.
Definition rsub (x : F) (a : ndarray F) : ndarray F := amap (f_sub x) a.
Definition radd (x : F) (a : ndarray F) : ndarray F := amap (f_add x) a.
Definition rdiv (x : F) (a : ndarray F) : ndarray F := amap (f_div x) a.
Definition power (a : ndarray F) (n : nat) : ndarray F :=
  amap (fun v => f_pow v n) a.
Definition negative (a : ndarray F) : ndarray F := amap f_neg a.

(** Sums run over the index in increasing order, from zero. *)
Definition sum_range (n : nat) (f : nat -> F) : F :=
  fold_left (fun acc k => f_add acc (f k)) (seq 0 n) f_zero.

(** [a @ b] *)
Definition matmul (a b : ndarray F) : outcome (ndarray F) :=
  if ncols a =? nrows b then
    inr (tabulate (nrows a) (ncols b) (fun i j =>
           sum_range (ncols a) (fun k =>
             f_mul (item f_zero a i k) (item f_zero b k j))))
  else inl ValueError.

(** [a.T] *)
Definition transpose (a : ndarray F) : ndarray F :=
  tabulate (ncols a) (nrows a) (fun i j => item f_zero a j i).

(** [np.sum(a, axis=0, keepdims=True)] *)
Definition sum_axis0 (a : ndarray F) : ndarray F :=
  tabulate 1 (ncols a) (fun _ j =>
    sum_range (nrows a) (fun i => item f_zero a i j)).

End Numpy.

(** ** The activation library *)

Section Activations.
Context {F : Type} `{Float64Ops F}.

(** [bool_array.astype(float)] *)
Definition astype_float (a : ndarray bool) : ndarray F :=
  amap (fun b : bool => if b then f_one else f_zero) a.

Definition tanh (x : ndarray F) : outcome (ndarray F) :=
  inr (amap f_tanh x).

Definition tanh_derivative (x : ndarray F) : outcome (ndarray F) :=
  inr (rsub f_one (power (amap f_tanh x) 2)).

Definition relu (x : ndarray F) : outcome (ndarray F) :=
  inr (amap (f_maximum f_zero) x).

Definition relu_derivative (x : ndarray F) : outcome (ndarray F) :=
  inr (astype_float (amap (fun v => f_gt v f_zero) x)).

Definition sigmoid (x : ndarray F) : outcome (ndarray F) :=
  inr (rdiv f_one (radd f_one (amap f_exp (negative x)))).

Definition sigmoid_derivative (x : ndarray F) : outcome (ndarray F) :=
  match sigmoid x with
  | inr s => mul s (rsub f_one s)
  | inl e => inl e
  end.

End Activations.

(** ** numpy's global random generator *)

Class RandomState (F G : Type) : Type := {
  rs_seed : nat -> G;              (* the state np.random.seed(n) installs *)
  rs_normal : G -> F * G           (* one standard normal draw *)
}.

Section Random.
Context {F G : Type} `{RandomState F G}.

Definition seed (n : nat) : M G unit := put (rs_seed n).

Fixpoint draws (n : nat) (g : G) : list F * G :=
  match n with
  | O => ([], g)
  | S k => let (x, g1) := rs_normal g in
           let (xs, g2) := draws k g1 in
           (x :: xs, g2)
  end.

(** [np.random.randn(r, c)] *)
Definition randn (r c : nat) : M G (ndarray F) :=
  fun g => let (xs, g') := draws (r * c) g in (inr (NDArray r c xs), g').

End Random.

(** ** The class MLP *)

Local Open Scope string_scope.
Local Open Scope py_scope.

(** [d[k]] on a dict *)
Definition getitem {V} (d : gmap string V) (k : string) : outcome V :=
  match d !! k with
  | Some v => inr v
  | None => inl KeyError
  end.

Section Network.
Context {F : Type} `{Float64Ops F}.

(** The attributes of an instance.  [Z1], [A1], [Z2] and [A2] do not exist
    before the first [forward]: [None] is the missing attribute.  For
    [hidden_features], [None] is Python's [None]. *)
Record MLP : Type := {
  lr : F;
  W1 : ndarray F;
  b1 : ndarray F;
  W2 : ndarray F;
  b2 : ndarray F;
  activation_fn : ndarray F -> outcome (ndarray F);
  activation_derivative : ndarray F -> outcome (ndarray F);
  hidden_features : option (ndarray F);
  gradients : gmap string (ndarray F);
  Z1 : option (ndarray F);
  A1 : option (ndarray F);
  Z2 : option (ndarray F);
  A2 : option (ndarray F)
}.

Definition set_W1 (v : ndarray F) (s : MLP) : MLP :=
  Build_MLP (lr s) v (b1 s) (W2 s) (b2 s) (activation_fn s)
    (activation_derivative s) (hidden_features s) (gradients s)
    (Z1 s) (A1 s) (Z2 s) (A2 s).
Definition set_b1 (v : ndarray F) (s : MLP) : MLP :=
  Build_MLP (lr s) (W1 s) v (W2 s) (b2 s) (activation_fn s)
    (activation_derivative s) (hidden_features s) (gradients s)
    (Z1 s) (A1 s) (Z2 s) (A2 s).
Definition set_W2 (v : ndarray F) (s : MLP) : MLP :=
  Build_MLP (lr s) (W1 s) (b1 s) v (b2 s) (activation_fn s)
    (activation_derivative s) (hidden_features s) (gradients s)
    (Z1 s) (A1 s) (Z2 s) (A2 s).
Definition set_b2 (v : ndarray F) (s : MLP) : MLP :=
  Build_MLP (lr s) (W1 s) (b1 s) (W2 s) v (activation_fn s)
    (activation_derivative s) (hidden_features s) (gradients s)
    (Z1 s) (A1 s) (Z2 s) (A2 s).
Definition set_hidden_features (v : option (ndarray F)) (s : MLP) : MLP :=
  Build_MLP (lr s) (W1 s) (b1 s) (W2 s) (b2 s) (activation_fn s)
    (activation_derivative s) v (gradients s)
    (Z1 s) (A1 s) (Z2 s) (A2 s).
Definition set_gradients (v : gmap string (ndarray F)) (s : MLP) : MLP :=
  Build_MLP (lr s) (W1 s) (b1 s) (W2 s) (b2 s) (activation_fn s)
    (activation_derivative s) (hidden_features s) v
    (Z1 s) (A1 s) (Z2 s) (A2 s).
Definition set_Z1 (v : ndarray F) (s : MLP) : MLP :=
  Build_MLP (lr s) (W1 s) (b1 s) (W2 s) (b2 s) (activation_fn s)
    (activation_derivative s) (hidden_features s) (gradients s)
    (Some v) (A1 s) (Z2 s) (A2 s).
Definition set_A1 (v : ndarray F) (s : MLP) : MLP :=
  Build_MLP (lr s) (W1 s) (b1 s) (W2 s) (b2 s) (activation_fn s)
    (activation_derivative s) (hidden_features s) (gradients s)
    (Z1 s) (Some v) (Z2 s) (A2 s).
Definition set_Z2 (v : ndarray F) (s : MLP) : MLP :=
  Build_MLP (lr s) (W1 s) (b1 s) (W2 s) (b2 s) (activation_fn s)
    (activation_derivative s) (hidden_features s) (gradients s)
    (Z1 s) (A1 s) (Some v) (A2 s).
Definition set_A2 (v : ndarray F) (s : MLP) : MLP :=
  Build_MLP (lr s) (W1 s) (b1 s) (W2 s) (b2 s) (activation_fn s)
    (activation_derivative s) (hidden_features s) (gradients s)
    (Z1 s) (A1 s) (Z2 s) (Some v).

(** [self.name] for an attribute set by [__init__] *)
Definition attr {A} (f : MLP -> A) : M MLP A := fun s => (inr (f s), s).

(** [self.name] for an attribute set by [forward] *)
Definition getattr {A} (f : MLP -> option A) : M MLP A :=
  fun s => match f s with
           | Some v => (inr v, s)
           | None => (inl AttributeError, s)
           end.

(** [self.gradients[k] = v] *)
Definition set_gradient (k : string) (v : ndarray F) : M MLP unit :=
  modify (fun s => set_gradients (<[k := v]> (gradients s)) s).

(** [self.gradients[k]] *)
Definition gradient (k : string) : M MLP (ndarray F) :=
  fun s => (getitem (gradients s) k, s).

Definition activation_fns : gmap string (ndarray F -> outcome (ndarray F)) :=
  list_to_map [("tanh", tanh); ("relu", relu); ("sigmoid", sigmoid)].

Definition activation_derivatives
  : gmap string (ndarray F -> outcome (ndarray F)) :=
  list_to_map [("tanh", tanh_derivative); ("relu", relu_derivative);
               ("sigmoid", sigmoid_derivative)].

Definition forward (X : ndarray F) : M MLP (ndarray F) :=
  let* w1 := attr W1 in
  let* xw := lift (matmul X w1) in
  let* b := attr b1 in
  let* z1 := lift (add xw b) in
  do modify (set_Z1 z1) then
  let* act := attr activation_fn in
  let* z1 := getattr Z1 in
  let* a1 := lift (act z1) in
  do modify (set_A1 a1) then
  let* a1 := getattr A1 in
  let* w2 := attr W2 in
  let* aw := lift (matmul a1 w2) in
  let* b := attr b2 in
  let* z2 := lift (add aw b) in
  do modify (set_Z2 z2) then
  let* z2 := getattr Z2 in
  let* a2 := lift (sigmoid z2) in
  do modify (set_A2 a2) then
  let* a1 := getattr A1 in
  do modify (set_hidden_features (Some a1)) then
  getattr A2.

Definition backward (X y : ndarray F) : M MLP unit :=
  let m := nrows X in
  let* a2 := getattr A2 in
  let* dZ2 := lift (sub a2 y) in
  let* a1 := getattr A1 in
  let* g := lift (matmul (transpose a1) dZ2) in
  do set_gradient "W2" (divn g m) then
  do set_gradient "b2" (divn (sum_axis0 dZ2) m) then
  let* w2 := attr W2 in
  let* dA1 := lift (matmul dZ2 (transpose w2)) in
  let* act' := attr activation_derivative in
  let* z1 := getattr Z1 in
  let* d := lift (act' z1) in
  let* dZ1 := lift (mul dA1 d) in
  let* g := lift (matmul (transpose X) dZ1) in
  do set_gradient "W1" (divn g m) then
  do set_gradient "b1" (divn (sum_axis0 dZ1) m) then
  let* w := attr W2 in let* l := attr lr in let* g := gradient "W2" in
  let* w' := lift (isub w (scale l g)) in
  do modify (set_W2 w') then
  let* w := attr b2 in let* l := attr lr in let* g := gradient "b2" in
  let* w' := lift (isub w (scale l g)) in
  do modify (set_b2 w') then
  let* w := attr W1 in let* l := attr lr in let* g := gradient "W1" in
  let* w' := lift (isub w (scale l g)) in
  do modify (set_W1 w') then
  let* w := attr b1 in let* l := attr lr in let* g := gradient "b1" in
  let* w' := lift (isub w (scale l g)) in
  modify (set_b1 w').

End Network.
Arguments MLP F : clear implicits.

Section Construction.
Context {F G : Type} `{Float64Ops F} `{RandomState F G}.

(** [MLP.__init__]: run on numpy's global generator, it returns the new
    instance, or raises and leaves none. *)
Definition MLP_init (input_dim hidden_dim output_dim : nat) (lr : F)
    (activation : string) : M G (MLP F) :=
  do seed 0 then
  let* r1 := randn input_dim hidden_dim in
  let w1 := times r1 f_tenth in
  let bias1 := zeros 1 hidden_dim in
  let* r2 := randn hidden_dim output_dim in
  let w2 := times r2 f_tenth in
  let bias2 := zeros 1 output_dim in
  let* act := lift (getitem activation_fns activation) in
  let* act' := lift (getitem activation_derivatives activation) in
  ret (Build_MLP lr w1 bias1 w2 bias2 act act' None ∅ None None None None).

(** [a[:, j]], an array of one dimension *)
Definition column (a : ndarray F) (j : nat) : list F :=
  map (fun i => item f_zero a i j) (seq 0 (nrows a)).

(** [v.reshape(-1, 1)] *)
Definition reshape_column {A} (v : list A) : ndarray A :=
  NDArray (length v) 1 v.

Definition generate_data (n_samples : nat) : M G (ndarray F * ndarray Z) :=
  do seed 0 then
  let* X := randn n_samples 2 in
  let sq0 := map (fun v => f_pow v 2) (column X 0) in
  let sq1 := map (fun v => f_pow v 2) (column X 1) in
  let outside := map (fun v => f_gt v f_one) (zip_with f_add sq0 sq1) in
  let y := reshape_column (map (fun b : bool => if b then 1%Z else 0%Z) outside) in
  ret (X, y).

End Construction.

(** ** Exact arithmetic: the real numbers *)

#[export] Instance R_ops : Float64Ops R := {|
  f_zero := 0%R;
  f_one := 1%R;
  f_tenth := (1 / 10)%R;
  f_add := Rplus;
  f_sub := Rminus;
  f_mul := Rmult;
  f_div := Rdiv;
  f_neg := Ropp;
  f_pow := pow;
  f_exp := exp;
  f_tanh := Rtrigo_def.tanh;
  f_maximum := Rmax;
  f_gt := fun x y => if Rlt_dec y x then true else false;
  f_of_nat := INR
|}.

(** ** IEEE 754 binary64: numpy's float64

    Sums, differences, products and quotients are the kernel's primitive
    floats (round to nearest, ties to even).  [np.exp] and [np.tanh] are
    routines of the C library; an element is [Some v] when the program's
    value is [v] whatever the library, and [None] when it depends on the
    library's rounding, which is not modelled.  [None] spreads through the
    arithmetic; a comparison with [None] is not modelled either and answers
    [false]. *)

Definition binary64 : Type := option float.

Definition b64_lift2 (op : float -> float -> float) (x y : binary64)
  : binary64 :=
  match x, y with
  | Some a, Some b => Some (op a b)
  | _, _ => None
  end.

(** [exp] where every library agrees: C's special values ([exp(0) = 1]),
    overflow above [log(DBL_MAX)] (about 709.78) and underflow to zero below
    [log] of half the least subnormal (about -745.13). *)
Definition libm_exp (x : float) : binary64 :=
  if PrimFloat.is_nan x then Some nan
  else if PrimFloat.leb x (-746)%float then Some 0%float
  else if PrimFloat.leb 710%float x then Some infinity
  else if PrimFloat.eqb x 0%float then Some 1%float
  else None.

(** [tanh] where every library agrees: zeros and infinities. *)
Definition libm_tanh (x : float) : binary64 :=
  if PrimFloat.is_nan x then Some nan
  else if PrimFloat.eqb x 0%float then Some x
  else if PrimFloat.eqb x infinity then Some 1%float
  else if PrimFloat.eqb x neg_infinity then Some (-1)%float
  else None.

(** [np.maximum] returns a nan operand. *)
Definition b64_maximum (a b : float) : float :=
  if PrimFloat.is_nan a then a
  else if PrimFloat.is_nan b then b
  else if PrimFloat.ltb a b then b else a.

(** [x ** n]: 1 for [n = 0], [x] for [n = 1] and [x * x] for [n = 2]
    (numpy squares); higher powers go through the library. *)
Definition b64_pow (x : binary64) (n : nat) : binary64 :=
  match n with
  | 0 => Some 1%float
  | 1 => x
  | 2 => b64_lift2 PrimFloat.mul x x
  | _ => None
  end.

#[export] Instance binary64_ops : Float64Ops binary64 := {|
  f_zero := Some 0%float;
  f_one := Some 1%float;
  f_tenth := Some 0x1.999999999999ap-4%float;
  f_add := b64_lift2 PrimFloat.add;
  f_sub := b64_lift2 PrimFloat.sub;
  f_mul := b64_lift2 PrimFloat.mul;
  f_div := b64_lift2 PrimFloat.div;
  f_neg := option_map PrimFloat.opp;
  f_pow := b64_pow;
  f_exp := fun x => match x with Some a => libm_exp a | None => None end;
  f_tanh := fun x => match x with Some a => libm_tanh a | None => None end;
  f_maximum := b64_lift2 b64_maximum;
  f_gt := fun x y => match x, y with
                     | Some a, Some b => PrimFloat.ltb b a
                     | _, _ => false
                     end;
  f_of_nat := fun n => Some (PrimFloat.of_uint63 (Uint63.of_Z (Z.of_nat n)))
|}.

(** ** Arrays: shapes and elements *)

Section ArrayFacts.
Context {A : Type}.

Lemma length_rows (c : nat) (g : nat -> list A) (r s : nat) :
  (forall i, length (g i) = c) ->
  length (flat_map g (seq s r)) = r * c.
Proof.
  intros Hg. revert s. induction r as [|r IH]; intros s; simpl; [reflexivity|].
  rewrite length_app, Hg, IH. reflexivity.
Qed.

Lemma nth_rows (d : A) (c : nat) (g : nat -> list A) (r s i j : nat) :
  (forall k, length (g k) = c) -> i < r -> j < c ->
  nth (i * c + j) (flat_map g (seq s r)) d = nth j (g (s + i)) d.
Proof.
  intros Hg. revert s i. induction r as [|r IH]; intros s i Hi Hj; [lia|].
  simpl. destruct i as [|i].
  - simpl. rewrite app_nth1 by (rewrite Hg; lia). now rewrite Nat.add_0_r.
  - rewrite app_nth2 by (rewrite Hg; simpl; lia).
    rewrite Hg. replace (S i * c + j - c) with (i * c + j) by (simpl; lia).
    rewrite IH by lia. f_equal. f_equal. lia.
Qed.

Lemma wf_tabulate (r c : nat) (f : nat -> nat -> A) : wf (tabulate r c f).
Proof.
  unfold wf, tabulate; simpl. apply length_rows.
  intros i. now rewrite length_map, length_seq.
Qed.

Lemma item_tabulate (d : A) (r c : nat) (f : nat -> nat -> A) (i j : nat) :
  i < r -> j < c -> item d (tabulate r c f) i j = f i j.
Proof.
  intros Hi Hj. unfold item, tabulate; simpl.
  rewrite nth_rows with (c := c); try assumption.
  - rewrite Nat.add_0_l.
    rewrite nth_indep with (d' := f i 0) by (rewrite length_map, length_seq; lia).
    rewrite map_nth, seq_nth by lia. reflexivity.
  - intros k. now rewrite length_map, length_seq.
Qed.

Lemma tabulate_ext (r c : nat) (f g : nat -> nat -> A) :
  (forall i j, i < r -> j < c -> f i j = g i j) ->
  tabulate r c f = tabulate r c g.
Proof.
  intros E. unfold tabulate. f_equal.
  rewrite !flat_map_concat_map. f_equal.
  apply map_ext_in. intros i Hi. apply in_seq in Hi.
  apply map_ext_in. intros j Hj. apply in_seq in Hj.
  apply E; lia.
Qed.

(** An array is the table of its elements. *)
Lemma tabulate_item (d : A) (a : ndarray A) :
  wf a -> tabulate (nrows a) (ncols a) (item d a) = a.
Proof.
  destruct a as [r c l]; unfold wf; simpl; intros Hl.
  unfold tabulate. f_equal.
  apply nth_ext with (d := d) (d' := d).
  - rewrite length_rows with (c := c); [lia|].
    intros i. now rewrite length_map, length_seq.
  - intros n Hn.
    rewrite length_rows with (c := c) in Hn
      by (intros i; now rewrite length_map, length_seq).
    assert (Hc : 0 < c) by (destruct c; [lia|lia]).
    pose proof (Nat.div_mod_eq n c) as Hdm.
    pose proof (Nat.mod_upper_bound n c ltac:(lia)) as Hm.
    assert (Hq : n / c < r).
    { apply Nat.Div0.div_lt_upper_bound. lia. }
    replace n with ((n / c) * c + n mod c) at 1 by lia.
    rewrite nth_rows with (c := c); try assumption.
    + rewrite Nat.add_0_l.
      rewrite nth_indep with (d' := item d (NDArray r c l) (n / c) 0)
        by (rewrite length_map, length_seq; lia).
      rewrite map_nth, seq_nth by lia. unfold item; simpl.
      f_equal. lia.
    + intros i. now rewrite length_map, length_seq.
Qed.

End ArrayFacts.

Lemma bidx_lt (n i : nat) : i < n -> bidx n i = i.
Proof.
  unfold bidx. destruct (Nat.eqb_spec n 1); [lia | reflexivity].
Qed.

Lemma broadcast_dim_same (n : nat) : broadcast_dim n n = Some n.
Proof. unfold broadcast_dim. now rewrite Nat.eqb_refl. Qed.

Lemma broadcast_dim_one_r (n : nat) : broadcast_dim n 1 = Some n.
Proof.
  unfold broadcast_dim. destruct (Nat.eqb_spec n 1) as [->|]; [reflexivity|].
  reflexivity.
Qed.

Lemma amap_tabulate {A B} (g : A -> B) (r c : nat) (f : nat -> nat -> A) :
  amap g (tabulate r c f) = tabulate r c (fun i j => g (f i j)).
Proof.
  unfold amap, tabulate; simpl. f_equal.
  rewrite !flat_map_concat_map, concat_map, map_map.
  f_equal. apply map_ext. intros i. now rewrite map_map.
Qed.

Lemma amap_amap {A B C} (g : B -> C) (f : A -> B) (a : ndarray A) :
  amap g (amap f a) = amap (fun v => g (f v)) a.
Proof. unfold amap; simpl. now rewrite map_map. Qed.

Lemma amap_as_table {A B} (d : A) (g : A -> B) (a : ndarray A) :
  wf a -> amap g a = tabulate (nrows a) (ncols a) (fun i j => g (item d a i j)).
Proof.
  intros Ha. rewrite <- (tabulate_item d Ha) at 1. apply amap_tabulate.
Qed.

(** ** Shape checks that succeed, and the elements of the result *)

Section NumpyFacts.
Context {F : Type} `{Float64Ops F}.

Lemma matmul_ok (a b : ndarray F) :
  ncols a = nrows b ->
  matmul a b = inr (tabulate (nrows a) (ncols b) (fun i j =>
    sum_range (ncols a) (fun k => f_mul a.[i, k] b.[k, j]))).
Proof. intros E. unfold matmul. now rewrite E, Nat.eqb_refl. Qed.

Lemma matmul_error (a b : ndarray F) :
  ncols a <> nrows b -> matmul a b = inl ValueError.
Proof.
  intros E. unfold matmul. now destruct (Nat.eqb_spec (ncols a) (nrows b)).
Qed.

Lemma broadcast2_same (op : F -> F -> F) (a b : ndarray F) :
  nrows a = nrows b -> ncols a = ncols b ->
  broadcast2 op a b =
  inr (tabulate (nrows a) (ncols a) (fun i j => op a.[i, j] b.[i, j])).
Proof.
  intros Er Ec. unfold broadcast2.
  rewrite <- Er, <- Ec, !broadcast_dim_same. f_equal.
  apply tabulate_ext. intros i j Hi Hj. now rewrite !bidx_lt.
Qed.

(** The second operand is one row, repeated over the rows of the first. *)
Lemma broadcast2_row (op : F -> F -> F) (a b : ndarray F) :
  nrows b = 1 -> ncols a = ncols b ->
  broadcast2 op a b =
  inr (tabulate (nrows a) (ncols a) (fun i j => op a.[i, j] b.[0, j])).
Proof.
  intros Er Ec. unfold broadcast2.
  rewrite Er, <- Ec, broadcast_dim_one_r, broadcast_dim_same. f_equal.
  apply tabulate_ext. intros i j Hi Hj.
  rewrite (bidx_lt Hi), !(bidx_lt Hj). reflexivity.
Qed.

Lemma isub_same (a b : ndarray F) :
  nrows a = nrows b -> ncols a = ncols b ->
  isub a b =
  inr (tabulate (nrows a) (ncols a) (fun i j => f_sub a.[i, j] b.[i, j])).
Proof.
  intros Er Ec. unfold isub, sub. rewrite broadcast2_same by assumption.
  unfold shape_eqb, shape; simpl. now rewrite !Nat.eqb_refl.
Qed.

End NumpyFacts.

(** ** What the activation functions compute on one element *)

Section Kernels.
Context {F : Type} `{Float64Ops F}.

Definition relu1 (v : F) : F := f_maximum f_zero v.
Definition sigmoid1 (v : F) : F :=
  f_div f_one (f_add f_one (f_exp (f_neg v))).
Definition tanh_derivative1 (v : F) : F :=
  f_sub f_one (f_pow (f_tanh v) 2).
Definition relu_derivative1 (v : F) : F :=
  if f_gt v f_zero then f_one else f_zero.
Definition sigmoid_derivative1 (v : F) : F :=
  f_mul (sigmoid1 v) (f_sub f_one (sigmoid1 v)).

(** [fn] applies [k] to every element and keeps the shape. *)
Definition elementwise (fn : ndarray F -> outcome (ndarray F)) (k : F -> F)
  : Prop :=
  forall x, wf x -> fn x = inr (amap k x).

Lemma tanh_elementwise : elementwise tanh f_tanh.
Proof. intros x _. reflexivity. Qed.

Lemma relu_elementwise : elementwise relu relu1.
Proof. intros x _. reflexivity. Qed.

Lemma sigmoid_amap (x : ndarray F) : sigmoid x = inr (amap sigmoid1 x).
Proof.
  unfold sigmoid, rdiv, radd, negative. now rewrite !amap_amap.
Qed.

Lemma sigmoid_elementwise : elementwise sigmoid sigmoid1.
Proof. intros x _. apply sigmoid_amap. Qed.

Lemma tanh_derivative_amap (x : ndarray F) :
  tanh_derivative x = inr (amap tanh_derivative1 x).
Proof.
  unfold tanh_derivative, rsub, power. now rewrite !amap_amap.
Qed.

Lemma tanh_derivative_elementwise : elementwise tanh_derivative tanh_derivative1.
Proof. intros x _. apply tanh_derivative_amap. Qed.

Lemma relu_derivative_amap (x : ndarray F) :
  relu_derivative x = inr (amap relu_derivative1 x).
Proof.
  unfold relu_derivative, astype_float. now rewrite amap_amap.
Qed.

Lemma relu_derivative_elementwise : elementwise relu_derivative relu_derivative1.
Proof. intros x _. apply relu_derivative_amap. Qed.

Lemma sigmoid_derivative_elementwise :
  elementwise sigmoid_derivative sigmoid_derivative1.
Proof.
  intros x Hx. unfold sigmoid_derivative. rewrite sigmoid_amap.
  unfold mul, rsub. rewrite broadcast2_same by reflexivity. f_equal.
  rewrite amap_amap. simpl.
  rewrite (amap_as_table f_zero sigmoid_derivative1 Hx).
  apply tabulate_ext. intros i j Hi Hj.
  rewrite !(amap_as_table f_zero _ Hx), !item_tabulate by assumption.
  reflexivity.
Qed.

End Kernels.

(** ** Instances of the class *)

Section NetworkFacts.
Context {F : Type} `{Float64Ops F}.

(** The two activation attributes were read from the two dicts under one
    name, as [__init__] does. *)
Definition configured (s : MLP F) : Prop :=
  exists name fn fn',
    activation_fns !! name = Some fn /\
    activation_derivatives !! name = Some fn' /\
    activation_fn s = fn /\ activation_derivative s = fn'.

(** The parameters have the shapes [__init__] gives them. *)
Record shaped (d h o : nat) (s : MLP F) : Prop := Shaped {
  shaped_W1 : shape (W1 s) = (d, h);
  shaped_b1 : shape (b1 s) = (1, h);
  shaped_W2 : shape (W2 s) = (h, o);
  shaped_b2 : shape (b2 s) = (1, o)
}.

Definition instance_ok (d h o : nat) (s : MLP F) : Prop :=
  shaped d h o s /\ configured s.

(** An activation function with its derivative, on one element. *)
Inductive kernel_pair : (F -> F) -> (F -> F) -> Prop :=
| kernel_tanh : kernel_pair f_tanh tanh_derivative1
| kernel_relu : kernel_pair relu1 relu_derivative1
| kernel_sigmoid : kernel_pair sigmoid1 sigmoid_derivative1.

Lemma activation_names (name : string) fn fn' :
  activation_fns !! name = Some fn ->
  activation_derivatives !! name = Some fn' ->
  (name = "tanh" /\ fn = tanh /\ fn' = tanh_derivative) \/
  (name = "relu" /\ fn = relu /\ fn' = relu_derivative) \/
  (name = "sigmoid" /\ fn = sigmoid /\ fn' = sigmoid_derivative).
Proof.
  unfold activation_fns, activation_derivatives; simpl.
  intros H1 H2.
  destruct (decide (name = "tanh")) as [->|N1].
  { rewrite lookup_insert_eq in H1, H2. left. split; [done|]. split; congruence. }
  rewrite lookup_insert_ne in H1, H2 by done.
  destruct (decide (name = "relu")) as [->|N2].
  { rewrite lookup_insert_eq in H1, H2. right; left. split; [done|]. split; congruence. }
  rewrite lookup_insert_ne in H1, H2 by done.
  destruct (decide (name = "sigmoid")) as [->|N3].
  { rewrite lookup_insert_eq in H1, H2. right; right. split; [done|]. split; congruence. }
  rewrite lookup_insert_ne in H1 by done. now rewrite lookup_empty in H1.
Qed.

Lemma configured_kernels (s : MLP F) :
  configured s ->
  exists k k', kernel_pair k k' /\
    elementwise (activation_fn s) k /\
    elementwise (activation_derivative s) k'.
Proof.
  intros (name & fn & fn' & H1 & H2 & E1 & E2).
  destruct (activation_names _ H1 H2) as [(_ & -> & ->)|[(_ & -> & ->)|(_ & -> & ->)]];
    rewrite E1, E2.
  - exists f_tanh, tanh_derivative1. split; [constructor|].
    split; [apply tanh_elementwise | apply tanh_derivative_elementwise].
  - exists relu1, relu_derivative1. split; [constructor|].
    split; [apply relu_elementwise | apply relu_derivative_elementwise].
  - exists sigmoid1, sigmoid_derivative1. split; [constructor|].
    split; [apply sigmoid_elementwise | apply sigmoid_derivative_elementwise].
Qed.

(** [X·W + b], the row [b] added to every row of the product. *)
Definition affine (X W b : ndarray F) : ndarray F :=
  tabulate (nrows X) (ncols W) (fun i j =>
    f_add (sum_range (ncols X) (fun k => f_mul X.[i, k] W.[k, j])) b.[0, j]).

Lemma affine_ok (X W b : ndarray F) :
  ncols X = nrows W -> nrows b = 1 -> ncols W = ncols b ->
  exists xw, matmul X W = inr xw /\ add xw b = inr (affine X W b).
Proof.
  intros E1 E2 E3. eexists. split; [apply matmul_ok; assumption|].
  unfold add. rewrite broadcast2_row by (simpl; assumption). simpl. f_equal.
  apply tabulate_ext. intros i j Hi Hj. now rewrite item_tabulate.
Qed.

End NetworkFacts.

Section ForwardFacts.
Context {F : Type} `{Float64Ops F}.

(** The instance [s] with the forward cache overwritten. *)
Definition cached (s : MLP F) (z1 a1 z2 a2 : ndarray F) : MLP F :=
  Build_MLP (lr s) (W1 s) (b1 s) (W2 s) (b2 s)
    (activation_fn s) (activation_derivative s)
    (Some a1) (gradients s) (Some z1) (Some a1) (Some z2) (Some a2).

Lemma forward_run (d h o : nat) (s : MLP F) (X : ndarray F) (k : F -> F) :
  shaped d h o s -> elementwise (activation_fn s) k -> ncols X = d ->
  let z1 := affine X (W1 s) (b1 s) in
  let a1 := amap k z1 in
  let z2 := affine a1 (W2 s) (b2 s) in
  let a2 := amap sigmoid1 z2 in
  forward X s = (inr a2, cached s z1 a1 z2 a2).
Proof.
  intros [S1 S2 S3 S4] Hk HX z1 a1 z2 a2.
  unfold shape in *.
  injection S1 as R1 C1. injection S2 as R2 C2.
  injection S3 as R3 C3. injection S4 as R4 C4.
  destruct (@affine_ok F _ X (W1 s) (b1 s)) as (xw & E1 & E2); [lia..|].
  destruct (@affine_ok F _ a1 (W2 s) (b2 s)) as (aw & E3 & E4);
    [simpl; lia | lia | lia |].
  assert (Ea : activation_fn s z1 = inr a1) by (apply Hk, wf_tabulate).
  unfold forward, bind, attr, lift, getattr, modify. simpl.
  rewrite E1, E2. simpl. fold z1. rewrite Ea. simpl.
  rewrite E3, E4. simpl.
  assert (Es : rdiv f_one (radd f_one (amap f_exp (negative z2))) = a2).
  { unfold rdiv, radd, negative, a2. now rewrite !amap_amap. }
  fold z2. rewrite Es. reflexivity.
Qed.

End ForwardFacts.

(** ** The formulas of backpropagation *)

Section BackwardFacts.
Context {F : Type} `{Float64Ops F}.

(** [A - Y], element by element *)
Definition residual (A Y : ndarray F) : ndarray F :=
  tabulate (nrows A) (ncols A) (fun i j => f_sub A.[i, j] Y.[i, j]).

(** [Aᵀ·D / m] *)
Definition grad_weights (A D : ndarray F) (m : nat) : ndarray F :=
  tabulate (ncols A) (ncols D) (fun j c =>
    f_div (sum_range (nrows A) (fun i => f_mul A.[i, j] D.[i, c]))
          (f_of_nat m)).

(** The sums of the columns of [D], over [m] *)
Definition grad_bias (D : ndarray F) (m : nat) : ndarray F :=
  tabulate 1 (ncols D) (fun _ c =>
    f_div (sum_range (nrows D) (fun i => D.[i, c])) (f_of_nat m)).

(** [(D·Wᵀ)] times the derivative [k'] at [Z], element by element *)
Definition hidden_delta (D W : ndarray F) (k' : F -> F) (Z : ndarray F)
  : ndarray F :=
  tabulate (nrows D) (nrows W) (fun i j =>
    f_mul (sum_range (ncols D) (fun c => f_mul D.[i, c] W.[j, c]))
          (k' Z.[i, j])).

(** [P - l × G], element by element *)
Definition descent (l : F) (P G : ndarray F) : ndarray F :=
  tabulate (nrows P) (ncols P) (fun i j =>
    f_sub P.[i, j] (f_mul l G.[i, j])).

Lemma sum_range_ext (n : nat) (f g : nat -> F) :
  (forall k, k < n -> f k = g k) -> sum_range n f = sum_range n g.
Proof.
  intros E. unfold sum_range. generalize f_zero.
  assert (Hin : forall k, In k (seq 0 n) -> f k = g k).
  { intros k Hk. apply in_seq in Hk. apply E. lia. }
  clear E. induction (seq 0 n) as [|x l IH]; intros acc; simpl; [reflexivity|].
  rewrite Hin by (now left). apply IH. intros k Hk. apply Hin. now right.
Qed.

Lemma item_amap (g : F -> F) (a : ndarray F) (i j : nat) :
  wf a -> i < nrows a -> j < ncols a -> (amap g a).[i, j] = g a.[i, j].
Proof.
  intros Ha Hi Hj. rewrite (amap_as_table f_zero g Ha).
  now rewrite item_tabulate.
Qed.

Lemma item_transpose (a : ndarray F) (i j : nat) :
  i < ncols a -> j < nrows a -> (transpose a).[i, j] = a.[j, i].
Proof. intros Hi Hj. unfold transpose. now rewrite item_tabulate. Qed.

Lemma residual_ok (A Y : ndarray F) :
  nrows A = nrows Y -> ncols A = ncols Y -> sub A Y = inr (residual A Y).
Proof. intros. unfold sub. now rewrite broadcast2_same. Qed.

Lemma grad_weights_ok (A D : ndarray F) (m : nat) :
  nrows A = nrows D ->
  exists g, matmul (transpose A) D = inr g /\ divn g m = grad_weights A D m.
Proof.
  intros E. eexists. split; [apply matmul_ok; simpl; assumption|].
  unfold divn. rewrite amap_tabulate. simpl. unfold grad_weights.
  apply tabulate_ext. intros j c Hj Hc. f_equal.
  apply sum_range_ext. intros i Hi. now rewrite item_transpose.
Qed.

Lemma grad_bias_ok (D : ndarray F) (m : nat) :
  divn (sum_axis0 D) m = grad_bias D m.
Proof. unfold divn, sum_axis0. now rewrite amap_tabulate. Qed.

Lemma hidden_delta_ok (D W Z : ndarray F) (fn' : ndarray F -> outcome (ndarray F))
    (k' : F -> F) :
  elementwise fn' k' -> wf Z ->
  ncols D = ncols W -> nrows Z = nrows D -> ncols Z = nrows W ->
  exists dA d',
    matmul D (transpose W) = inr dA /\ fn' Z = inr d' /\
    mul dA d' = inr (hidden_delta D W k' Z).
Proof.
  intros Hk HZ E1 E2 E3. eexists. eexists.
  split; [apply matmul_ok; simpl; assumption|].
  split; [apply Hk; assumption|].
  unfold mul. rewrite broadcast2_same by (simpl; congruence). simpl. f_equal.
  unfold hidden_delta. apply tabulate_ext. intros i j Hi Hj.
  rewrite item_tabulate by assumption.
  rewrite item_amap by (try assumption; lia). f_equal.
  apply sum_range_ext. intros c Hc. rewrite item_transpose by lia.
  reflexivity.
Qed.

Lemma descent_ok (l : F) (P G : ndarray F) :
  wf G -> nrows P = nrows G -> ncols P = ncols G ->
  isub P (scale l G) = inr (descent l P G).
Proof.
  intros HG E1 E2. rewrite isub_same by (simpl; assumption). f_equal.
  unfold descent. apply tabulate_ext. intros i j Hi Hj.
  unfold scale. rewrite item_amap by (try assumption; lia). reflexivity.
Qed.

End BackwardFacts.

(** ** Running a method step by step *)

Section Steps.
Context {F : Type} `{Float64Ops F}.
Context {B : Type}.
Implicit Types (s : MLP F) (k : ndarray F -> M (MLP F) B).

Lemma step_attr {A} (f : MLP F -> A) (c : A -> M (MLP F) B) s :
  bind (attr f) c s = c (f s) s.
Proof. reflexivity. Qed.

Lemma step_getattr {A} (f : MLP F -> option A) (c : A -> M (MLP F) B) s v :
  f s = Some v -> bind (getattr f) c s = c v s.
Proof. intros E. unfold bind, getattr. now rewrite E. Qed.

Lemma step_getattr_missing {A} (f : MLP F -> option A)
    (c : A -> M (MLP F) B) s :
  f s = None -> bind (getattr f) c s = (inl AttributeError, s).
Proof. intros E. unfold bind, getattr. now rewrite E. Qed.

Lemma step_lift {A} (o : outcome A) (c : A -> M (MLP F) B) s v :
  o = inr v -> bind (lift o) c s = c v s.
Proof. intros ->. reflexivity. Qed.

Lemma step_lift_raise {A} (o : outcome A) (c : A -> M (MLP F) B) s e :
  o = inl e -> bind (lift o) c s = (inl e, s).
Proof. intros ->. reflexivity. Qed.

Lemma step_modify (g : MLP F -> MLP F) (c : unit -> M (MLP F) B) s :
  bind (modify g) c s = c tt (g s).
Proof. reflexivity. Qed.

Lemma step_set_gradient (n : string) (v : ndarray F)
    (c : unit -> M (MLP F) B) s :
  bind (set_gradient n v) c s =
  c tt (set_gradients (<[n := v]> (gradients s)) s).
Proof. reflexivity. Qed.

Lemma step_gradient (n : string) k s v :
  gradients s !! n = Some v -> bind (gradient n) k s = k v s.
Proof. intros E. unfold bind, gradient, getitem. now rewrite E. Qed.

End Steps.

(** The attributes of an instance after a write. *)
Ltac attrs :=
  cbn [set_W1 set_b1 set_W2 set_b2 set_hidden_features set_gradients
       set_Z1 set_A1 set_Z2 set_A2
       lr W1 b1 W2 b2 activation_fn activation_derivative hidden_features
       gradients Z1 A1 Z2 A2].

Ltac step :=
  first
    [ rewrite step_attr
    | rewrite step_modify
    | rewrite step_set_gradient
    | erewrite step_getattr by (attrs; eassumption)
    | erewrite step_lift by (attrs; eassumption)
    | erewrite step_gradient
        by (attrs; rewrite ?lookup_insert_ne by done; apply lookup_insert_eq) ];
  attrs.

Section BackwardRun.
Context {F : Type} `{Float64Ops F}.

(** The instance [s] with its four parameters and its gradient dict
    replaced. *)
Definition updated (s : MLP F) (w1 c1 w2 c2 : ndarray F)
    (g : gmap string (ndarray F)) : MLP F :=
  Build_MLP (lr s) w1 c1 w2 c2 (activation_fn s) (activation_derivative s)
    (hidden_features s) g (Z1 s) (A1 s) (Z2 s) (A2 s).

Lemma backward_run (d h o m : nat) (s : MLP F) (X y z1 a1 a2 : ndarray F)
    (k' : F -> F) :
  shaped d h o s -> elementwise (activation_derivative s) k' ->
  Z1 s = Some z1 -> A1 s = Some a1 -> A2 s = Some a2 ->
  wf z1 -> shape z1 = (m, h) -> shape a1 = (m, h) -> shape a2 = (m, o) ->
  shape X = (m, d) -> shape y = (m, o) ->
  let dZ2 := residual a2 y in
  let gW2 := grad_weights a1 dZ2 m in
  let gb2 := grad_bias dZ2 m in
  let dZ1 := hidden_delta dZ2 (W2 s) k' z1 in
  let gW1 := grad_weights X dZ1 m in
  let gb1 := grad_bias dZ1 m in
  backward X y s =
  (inr tt,
   updated s (descent (lr s) (W1 s) gW1) (descent (lr s) (b1 s) gb1)
             (descent (lr s) (W2 s) gW2) (descent (lr s) (b2 s) gb2)
             (<["b1" := gb1]> (<["W1" := gW1]> (<["b2" := gb2]>
                (<["W2" := gW2]> (gradients s)))))).
Proof.
  intros [S1 S2 S3 S4] Hk EZ1 EA1 EA2 Hz Sz Sa1 Sa2 SX Sy.
  intros dZ2 gW2 gb2 dZ1 gW1 gb1.
  unfold shape in *.
  injection S1 as R1 C1. injection S2 as R2 C2.
  injection S3 as R3 C3. injection S4 as R4 C4.
  injection Sz as Rz Cz. injection Sa1 as Ra1 Ca1. injection Sa2 as Ra2 Ca2.
  injection SX as RX CX. injection Sy as Ry Cy.
  assert (E1 : sub a2 y = inr dZ2) by (apply residual_ok; lia).
  destruct (grad_weights_ok a1 dZ2 m) as (g2 & E2 & E2'); [simpl; lia|].
  destruct (@hidden_delta_ok F _ dZ2 (W2 s) z1 (activation_derivative s) k')
    as (dA1 & d' & E3 & E4 & E5); [assumption | assumption | simpl; lia..|].
  destruct (grad_weights_ok X dZ1 m) as (g1 & E6 & E6'); [simpl; lia|].
  assert (U2 : isub (W2 s) (scale (lr s) gW2) = inr (descent (lr s) (W2 s) gW2))
    by (apply descent_ok; [apply wf_tabulate | simpl; lia..]).
  assert (U2' : isub (b2 s) (scale (lr s) gb2) = inr (descent (lr s) (b2 s) gb2))
    by (apply descent_ok; [apply wf_tabulate | simpl; lia..]).
  assert (U1 : isub (W1 s) (scale (lr s) gW1) = inr (descent (lr s) (W1 s) gW1))
    by (apply descent_ok; [apply wf_tabulate | simpl; lia..]).
  assert (U1' : isub (b1 s) (scale (lr s) gb1) = inr (descent (lr s) (b1 s) gb1))
    by (apply descent_ok; [apply wf_tabulate | simpl; lia..]).
  subst dZ2 gW2 gb2 dZ1 gW1 gb1.
  unfold backward. cbv zeta. rewrite RX.
  repeat step.
  rewrite E2', E6', !grad_bias_ok.
  repeat step.
  reflexivity.
Qed.

End BackwardRun.

(** ** The constructor *)

Section ConstructionFacts.
Context {F G : Type} `{Float64Ops F} `{RandomState F G}.

Lemma length_draws (n : nat) (g : G) : length (fst (draws n g)) = n.
Proof.
  revert g. induction n as [|n IH]; intros g; simpl; [reflexivity|].
  destruct (rs_normal g) as [x g1]. specialize (IH g1).
  destruct (draws n g1) as [xs g2]. simpl in *. now rewrite IH.
Qed.

(** The generator after [__init__] has drawn the two weight matrices. *)
Definition after_init (d h o : nat) : G :=
  snd (draws (h * o) (snd (draws (d * h) (rs_seed 0)))).

(** The instance [__init__] builds once both lookups have succeeded. *)
Definition fresh (d h o : nat) (l : F)
    (fn fn' : ndarray F -> outcome (ndarray F)) : MLP F :=
  let r1 := draws (d * h) (rs_seed 0) in
  let r2 := draws (h * o) (snd r1) in
  Build_MLP l (times (NDArray d h (fst r1)) f_tenth) (zeros 1 h)
    (times (NDArray h o (fst r2)) f_tenth) (zeros 1 o)
    fn fn' None ∅ None None None None.

Lemma MLP_init_run (d h o : nat) (l : F) (name : string) (g : G) :
  MLP_init d h o l name g =
  match activation_fns !! name, activation_derivatives !! name with
  | Some fn, Some fn' => (inr (fresh d h o l fn fn'), after_init d h o)
  | _, _ => (inl KeyError, after_init d h o)
  end.
Proof.
  unfold MLP_init, fresh, after_init, bind, seed, put, randn, lift, ret, getitem.
  destruct (draws (d * h) (rs_seed 0)) as [xs1 g1]. simpl.
  destruct (draws (h * o) g1) as [xs2 g2]. simpl.
  destruct (activation_fns !! name); [|reflexivity].
  destruct (activation_derivatives !! name); reflexivity.
Qed.

Lemma supported_lookup (name : string) :
  name = "tanh" \/ name = "relu" \/ name = "sigmoid" ->
  exists fn fn', @activation_fns F _ !! name = Some fn /\
                 @activation_derivatives F _ !! name = Some fn'.
Proof.
  intros [-> | [-> | ->]]; eexists; eexists; split; reflexivity.
Qed.

Lemma unsupported_lookup (name : string) :
  name <> "tanh" -> name <> "relu" -> name <> "sigmoid" ->
  @activation_fns F _ !! name = None.
Proof.
  intros N1 N2 N3. unfold activation_fns; simpl.
  rewrite !lookup_insert_ne by done. apply lookup_empty.
Qed.

(** A constructed instance has the shapes of its dimensions, a matching
    pair of activation attributes, and neither cache nor gradients. *)
Lemma MLP_init_instance (d h o : nat) (l : F) (name : string) (g g' : G)
    (s : MLP F) :
  MLP_init d h o l name g = (inr s, g') ->
  instance_ok d h o s /\ lr s = l /\
  Z1 s = None /\ A1 s = None /\ Z2 s = None /\ A2 s = None /\
  hidden_features s = None /\ gradients s = ∅.
Proof.
  rewrite MLP_init_run.
  destruct (activation_fns !! name) as [fn|] eqn:E1; [|discriminate].
  destruct (activation_derivatives !! name) as [fn'|] eqn:E2; [|discriminate].
  intros E. injection E as <- _.
  split; [|repeat split].
  split.
  - constructor; reflexivity.
  - exists name, fn, fn'. repeat split; assumption.
Qed.

End ConstructionFacts.

(** ** What a method leaves untouched *)

Section Frame.
Context {F : Type} `{Float64Ops F}.

(** Everything but the forward cache is the same in [s] and [s']. *)
Definition same_parameters (s s' : MLP F) : Prop :=
  lr s' = lr s /\ W1 s' = W1 s /\ b1 s' = b1 s /\
  W2 s' = W2 s /\ b2 s' = b2 s /\
  activation_fn s' = activation_fn s /\
  activation_derivative s' = activation_derivative s /\
  gradients s' = gradients s.

Definition keeps_parameters {A} (c : M (MLP F) A) : Prop :=
  forall s, same_parameters s (snd (c s)).

Lemma same_parameters_refl (s : MLP F) : same_parameters s s.
Proof. repeat split. Qed.

Lemma same_parameters_trans (s1 s2 s3 : MLP F) :
  same_parameters s1 s2 -> same_parameters s2 s3 -> same_parameters s1 s3.
Proof.
  unfold same_parameters. intros H12 H23.
  repeat match goal with H : _ /\ _ |- _ => destruct H end.
  repeat split; congruence.
Qed.

Lemma keeps_bind {A B} (c : M (MLP F) A) (k : A -> M (MLP F) B) :
  keeps_parameters c -> (forall a, keeps_parameters (k a)) ->
  keeps_parameters (bind c k).
Proof.
  intros Hc Hk s. unfold bind. specialize (Hc s).
  destruct (c s) as [[e|a] s1]; simpl in *; [assumption|].
  eapply same_parameters_trans; [eassumption | apply Hk].
Qed.

Lemma keeps_attr {A} (f : MLP F -> A) : keeps_parameters (attr f).
Proof. intros s. apply same_parameters_refl. Qed.

Lemma keeps_getattr {A} (f : MLP F -> option A) :
  keeps_parameters (getattr f).
Proof.
  intros s. unfold getattr. destruct (f s); apply same_parameters_refl.
Qed.

Lemma keeps_lift {A} (o : outcome A) : keeps_parameters (lift o).
Proof. intros s. apply same_parameters_refl. Qed.

Lemma keeps_modify (g : MLP F -> MLP F) :
  (forall s, same_parameters s (g s)) -> keeps_parameters (modify g).
Proof. intros Hg s. apply Hg. Qed.

End Frame.

(** Each step of a method is a read, a raise or a write. *)
Ltac keeps :=
  lazymatch goal with
  | |- keeps_parameters (bind _ _) =>
      apply keeps_bind; [keeps | intros ?; keeps]
  | |- keeps_parameters (attr _) => apply keeps_attr
  | |- keeps_parameters (getattr _) => apply keeps_getattr
  | |- keeps_parameters (lift _) => apply keeps_lift
  | |- keeps_parameters (modify _) =>
      apply keeps_modify; intros ?; repeat split
  end.

(** ** Examples in binary64 *)

(** A generator that always draws 1.0; it stands in for numpy's generator
    where an example has to run the constructor. *)
#[export] Instance constant_generator : RandomState binary64 unit := {|
  rs_seed := fun _ => tt;
  rs_normal := fun g => (Some 1%float, g)
|}.

(** [MLP(2, 3, 1, 0.01, 'tanh')] under that generator. *)
Definition example_mlp : MLP binary64 :=
  @fresh binary64 unit _ _ 2 3 1 (Some 0x1.47ae147ae147bp-7%float)
    tanh tanh_derivative.

Definition example_X : ndarray binary64 :=
  NDArray 2 2 [Some 0%float; Some 0%float; Some 0%float; Some 0%float].

Definition example_y : ndarray binary64 :=
  NDArray 2 1 [Some 0%float; Some 1%float].

Lemma example_mlp_init :
  MLP_init 2 3 1 (Some 0x1.47ae147ae147bp-7%float) "tanh" tt =
  (inr example_mlp, tt).
Proof. rewrite MLP_init_run. reflexivity. Defined.

Lemma example_mlp_ok : instance_ok 2 3 1 example_mlp.
Proof.
  split.
  - constructor; reflexivity.
  - exists "tanh", tanh, tanh_derivative. repeat split; reflexivity.
Defined.

(** ** The constructor and the activation name *)

(** C7, amended. [MLP.__init__] with one of the names "tanh", "relu",
    "sigmoid" does not raise and returns an instance of the given
    dimensions; with any other name the lookup in the activation dict raises
    [KeyError], so no instance exists and no [forward] or [backward] can
    run.  On both paths the global generator has been reseeded and the two
    weight matrices have been drawn before the lookup. *)
Theorem MLP_init_activation_name {F G : Type} `{Float64Ops F}
    `{RandomState F G} (d h o : nat) (l : F) (name : string) (g : G) :
  (name = "tanh" \/ name = "relu" \/ name = "sigmoid" ->
   exists s, MLP_init d h o l name g = (inr s, after_init d h o) /\
             instance_ok d h o s) /\
  (name <> "tanh" -> name <> "relu" -> name <> "sigmoid" ->
   MLP_init d h o l name g = (inl KeyError, after_init d h o)).
Proof.
  split.
  - intros Hn. destruct (@supported_lookup F _ name Hn) as (fn & fn' & E1 & E2).
    assert (E : MLP_init d h o l name g =
                (inr (fresh d h o l fn fn'), after_init d h o))
      by now rewrite MLP_init_run, E1, E2.
    eexists. split; [exact E|]. exact (proj1 (MLP_init_instance _ _ _ _ _ _ E)).
  - intros N1 N2 N3. rewrite MLP_init_run.
    now rewrite (@unsupported_lookup F _ name N1 N2 N3).
Qed.

Lemma MLP_init_gelu_refused :
  MLP_init (F := binary64) 2 3 1 (Some 0x1.47ae147ae147bp-7%float) "gelu" tt =
  (inl KeyError, tt).
Proof.
  refine (proj2 (MLP_init_activation_name (F := binary64) 2 3 1
                   (Some 0x1.47ae147ae147bp-7%float) "gelu" tt) _ _ _);
    discriminate.
Defined.

(** A generator whose state counts the draws since the last seeding (the
    seed being the starting count); every draw is 1.0. *)
Definition counting_generator : RandomState binary64 nat := {|
  rs_seed := fun n => n;
  rs_normal := fun g => (Some 1%float, S g)
|}.

(** With the name "gelu" the lookup raises only after [__init__] has
    reseeded the global generator and drawn the 2·3 + 3·1 weights: a
    generator that stood at 42 stands at 9 when the [KeyError] arrives. *)
Lemma MLP_init_gelu_draws_first :
  @MLP_init binary64 nat _ counting_generator 2 3 1
    (Some 0x1.47ae147ae147bp-7%float) "gelu" 42%nat =
  (inl KeyError, 9%nat).
Proof. vm_compute. reflexivity. Qed.

(** ** backward without a cache *)

(** C10. On an instance that [__init__] has just returned, [backward]
    raises [AttributeError] at the read of [self.A2] and leaves the instance
    exactly as it was: no gradient stored, no parameter changed. *)
Theorem backward_before_forward {F G : Type} `{Float64Ops F}
    `{RandomState F G} (d h o : nat) (l : F) (name : string) (g g' : G)
    (s : MLP F) (X y : ndarray F) :
  MLP_init d h o l name g = (inr s, g') ->
  backward X y s = (inl AttributeError, s).
Proof.
  intros Hinit.
  destruct (MLP_init_instance _ _ _ _ _ _ Hinit)
    as (_ & _ & _ & _ & _ & EA2 & _).
  unfold backward. cbv zeta. now rewrite (step_getattr_missing _ _ _ EA2).
Qed.

Lemma backward_before_forward_example :
  backward example_X example_y example_mlp = (inl AttributeError, example_mlp).
Proof.
  exact (backward_before_forward 2 3 1 _ "tanh" tt example_X example_y
           example_mlp_init).
Defined.

(** ** forward *)

(** C9. Whatever [X] and whether or not it raises, [forward] leaves the
    learning rate, the four parameters, the two activation attributes and
    the gradient dict as they were; what it writes is the cache ([Z1], [A1],
    [Z2], [A2], [hidden_features]). *)
Theorem forward_leaves_parameters {F : Type} `{Float64Ops F}
    (X : ndarray F) (s : MLP F) :
  let s' := snd (forward X s) in
  lr s' = lr s /\ W1 s' = W1 s /\ b1 s' = b1 s /\
  W2 s' = W2 s /\ b2 s' = b2 s /\
  activation_fn s' = activation_fn s /\
  activation_derivative s' = activation_derivative s /\
  gradients s' = gradients s.
Proof.
  cbv zeta. change (same_parameters s (snd (forward X s))).
  revert s. change (keeps_parameters (forward X)).
  unfold forward.
  (* every step either reads, raises or writes one cache attribute *)
  keeps.
Qed.

(** C2. On an instance with the shapes of dimensions [d], [h], [o] and a
    batch [X] of [d] columns, [forward] computes [Z1 = X·W1 + b1] (the row
    [b1] added to every row), [A1] = the configured activation applied to
    every element of [Z1], [Z2 = A1·W2 + b2], [A2] = the sigmoid of every
    element of [Z2]; it stores the four (and [hidden_features = A1]) over
    whatever cache there was, and returns [A2]. *)
Theorem forward_computes_and_caches {F : Type} `{Float64Ops F}
    (d h o : nat) (s : MLP F) (X : ndarray F) :
  instance_ok d h o s -> ncols X = d ->
  exists k k', kernel_pair k k' /\
    elementwise (activation_fn s) k /\
    let z1 := affine X (W1 s) (b1 s) in
    let a1 := amap k z1 in
    let z2 := affine a1 (W2 s) (b2 s) in
    let a2 := amap sigmoid1 z2 in
    activation_fn s z1 = inr a1 /\
    sigmoid z2 = inr a2 /\
    shape a2 = (nrows X, o) /\
    forward X s = (inr a2, cached s z1 a1 z2 a2).
Proof.
  intros [Hs Hc] HX.
  destruct (configured_kernels Hc) as (k & k' & Hkk & Hk & _).
  exists k, k'. split; [assumption|]. split; [assumption|]. cbv zeta.
  split; [apply Hk, wf_tabulate|].
  split; [apply sigmoid_amap|].
  split.
  - destruct Hs as [_ _ S3 _]. unfold shape in *; simpl.
    injection S3 as _ ->. reflexivity.
  - exact (@forward_run F _ d h o s X k Hs Hk HX).
Qed.

Lemma forward_example_returns :
  exists a2, fst (forward example_X example_mlp) = inr a2 /\ shape a2 = (2, 1).
Proof.
  destruct (@forward_computes_and_caches binary64 _ 2 3 1 example_mlp
              example_X example_mlp_ok eq_refl)
    as (k & k' & _ & _ & _ & _ & Hshape & Hrun).
  eexists. rewrite Hrun. split; [reflexivity | exact Hshape].
Defined.

(** ** backward *)

(** C1. After [forward X] on an instance of dimensions [d], [h], [o], with
    [m] the number of rows of [X] and [y] of shape [m × o], [backward X y]
    computes
    - the output delta [dZ2 = A2 - y],
    - the gradients [A1ᵀ·dZ2 / m] and column-sum([dZ2]) [/ m] of [W2], [b2],
    - the hidden delta [dZ1 = (dZ2·W2ᵀ)] times the derivative of the
      configured activation at the cached [Z1], element by element,
    - the gradients [Xᵀ·dZ1 / m] and column-sum([dZ1]) [/ m] of [W1], [b1],
    stores the four gradients under "W2", "b2", "W1", "b1", and then
    replaces every parameter by parameter [- lr ×] its gradient.  Every
    gradient is computed from the parameters as they were before the
    update ([W2] in [dZ1] is the one [forward] used). *)
Theorem backward_gradients_and_update {F : Type} `{Float64Ops F}
    (d h o : nat) (s0 : MLP F) (X y : ndarray F) :
  instance_ok d h o s0 -> ncols X = d -> shape y = (nrows X, o) ->
  exists k k', kernel_pair k k' /\
    elementwise (activation_fn s0) k /\
    elementwise (activation_derivative s0) k' /\
    let m := nrows X in
    let z1 := affine X (W1 s0) (b1 s0) in
    let a1 := amap k z1 in
    let z2 := affine a1 (W2 s0) (b2 s0) in
    let a2 := amap sigmoid1 z2 in
    let s := cached s0 z1 a1 z2 a2 in
    let dZ2 := residual a2 y in
    let gW2 := grad_weights a1 dZ2 m in
    let gb2 := grad_bias dZ2 m in
    let dZ1 := hidden_delta dZ2 (W2 s0) k' z1 in
    let gW1 := grad_weights X dZ1 m in
    let gb1 := grad_bias dZ1 m in
    forward X s0 = (inr a2, s) /\
    backward X y s =
    (inr tt,
     updated s (descent (lr s0) (W1 s0) gW1) (descent (lr s0) (b1 s0) gb1)
               (descent (lr s0) (W2 s0) gW2) (descent (lr s0) (b2 s0) gb2)
               (<["b1" := gb1]> (<["W1" := gW1]> (<["b2" := gb2]>
                  (<["W2" := gW2]> (gradients s0)))))).
Proof.
  intros [Hs Hc] HX Hy.
  destruct (configured_kernels Hc) as (k & k' & Hkk & Hk & Hk').
  exists k, k'. split; [assumption|].
  split; [assumption|]. split; [assumption|]. cbv zeta.
  split; [exact (@forward_run F _ d h o s0 X k Hs Hk HX)|].
  pose proof Hs as [S1 S2 S3 S4]. unfold shape in *.
  injection S1 as R1 C1. injection S3 as R3 C3.
  set (z1 := affine X (W1 s0) (b1 s0)).
  set (a1 := amap k z1).
  set (z2 := affine a1 (W2 s0) (b2 s0)).
  set (a2 := amap sigmoid1 z2).
  apply (@backward_run F _ d h o (nrows X) (cached s0 z1 a1 z2 a2)
           X y z1 a1 a2 k').
  - destruct Hs. constructor; assumption.
  - exact Hk'.
  - reflexivity.
  - reflexivity.
  - reflexivity.
  - apply wf_tabulate.
  - unfold shape; simpl. now rewrite C1.
  - unfold shape; simpl. now rewrite C1.
  - unfold shape; simpl. now rewrite C3.
  - unfold shape. now rewrite HX.
  - exact Hy.
Qed.

Lemma backward_example_returns :
  fst (backward example_X example_y (snd (forward example_X example_mlp))) =
  inr tt.
Proof.
  destruct (@backward_gradients_and_update binary64 _ 2 3 1 example_mlp
              example_X example_y example_mlp_ok eq_refl eq_refl)
    as (k & k' & _ & _ & _ & Hf & Hb).
  rewrite Hf. cbn [snd]. rewrite Hb. reflexivity.
Defined.

(** ** generate_data *)

Section DataFacts.
Context {F G : Type} `{Float64Ops F} `{RandomState F G}.

Lemma zip_with_map_same {A B C D} (f : B -> C -> D) (g : A -> B) (k : A -> C)
    (l : list A) :
  zip_with f (map g l) (map k l) = map (fun x => f (g x) (k x)) l.
Proof. induction l as [|x l IH]; simpl; [reflexivity | now rewrite IH]. Qed.

(** The label of row [i] of [X]. *)
Definition outside_unit_circle (X : ndarray F) (i : nat) : Z :=
  if f_gt (f_add (f_pow X.[i, 0] 2) (f_pow X.[i, 1] 2)) f_one
  then 1%Z else 0%Z.

Lemma generate_data_run (n : nat) (g : G) :
  let r := draws (n * 2) (rs_seed 0) in
  let X := NDArray n 2 (fst r) in
  generate_data n g =
  (inr (X, NDArray n 1 (map (outside_unit_circle X) (seq 0 n))), snd r).
Proof.
  cbv zeta. unfold generate_data, bind, seed, put, randn, ret.
  destruct (draws (n * 2) (rs_seed 0)) as [xs g'] eqn:E. simpl.
  unfold column, reshape_column. simpl.
  rewrite !map_map, zip_with_map_same, !map_map.
  rewrite length_map, length_seq. reflexivity.
Qed.

End DataFacts.

(** C4. [generate_data n] returns [X] of shape [n × 2] and [y] of shape
    [n × 1], and for every row [i] the label [y[i, 0]] is 1 when
    [X[i,0]**2 + X[i,1]**2 > 1] and 0 otherwise. *)
Theorem generate_data_labels {F G : Type} `{Float64Ops F} `{RandomState F G}
    (n : nat) (g : G) :
  exists X y g',
    generate_data n g = (inr (X, y), g') /\
    shape X = (n, 2) /\ wf X /\ shape y = (n, 1) /\ wf y /\
    forall i, i < n ->
      item 0%Z y i 0 =
      if f_gt (f_add (f_pow X.[i, 0] 2) (f_pow X.[i, 1] 2)) f_one
      then 1%Z else 0%Z.
Proof.
  eexists. eexists. eexists. split; [apply generate_data_run|].
  split; [reflexivity|]. split.
  { unfold wf; simpl. apply length_draws. }
  split; [reflexivity|]. split.
  { unfold wf; simpl. rewrite length_map, length_seq. lia. }
  intros i Hi. unfold item; simpl.
  rewrite Nat.mul_1_r, Nat.add_0_r.
  set (X := NDArray n 2 (fst (draws (n * 2) (rs_seed 0)))).
  rewrite nth_indep with (d' := outside_unit_circle X 0)
    by (rewrite length_map, length_seq; lia).
  rewrite map_nth, seq_nth by lia. reflexivity.
Qed.

(** C8. The outcome of [generate_data n] (the two arrays, and the generator
    it leaves) does not depend on the state of the global generator at the
    call: two calls with the same [n] return identical data, whatever
    happened in between. *)
Theorem generate_data_deterministic {F G : Type} `{Float64Ops F}
    `{RandomState F G} (n : nat) (g1 g2 : G) :
  generate_data n g1 = generate_data n g2.
Proof.
  unfold generate_data, bind at 1 3.
  (* [seed 0] discards the generator it finds *)
  unfold seed, put. reflexivity.
Qed.

(** ** Exact arithmetic: ranges of the activation functions *)

Section RealRanges.
Local Open Scope R_scope.

Lemma f_gt_real (x y : R) : f_gt x y = true <-> y < x.
Proof.
  simpl. destruct (Rlt_dec y x); split; intros; try assumption;
    try reflexivity; try discriminate; contradiction.
Qed.

Lemma sigmoid1_real (v : R) : sigmoid1 v = 1 / (1 + exp (- v)).
Proof. reflexivity. Qed.

Lemma sigmoid1_range (v : R) : 0 < sigmoid1 v < 1.
Proof.
  rewrite sigmoid1_real. pose proof (exp_pos (- v)) as He.
  assert (Hd : 0 < 1 + exp (- v)) by lra.
  split.
  - apply Rdiv_lt_0_compat; lra.
  - apply Rmult_lt_reg_r with (1 + exp (- v)); [assumption|].
    unfold Rdiv. rewrite Rmult_assoc, Rinv_l by lra. lra.
Qed.

Lemma sigmoid_derivative1_real (v : R) :
  sigmoid_derivative1 v = sigmoid1 v * (1 - sigmoid1 v).
Proof. reflexivity. Qed.

Lemma sigmoid_derivative1_range (v : R) :
  0 < sigmoid_derivative1 v <= 1 / 4.
Proof.
  rewrite sigmoid_derivative1_real.
  pose proof (sigmoid1_range v) as [H0 H1].
  set (s := sigmoid1 v) in *. split.
  - apply Rmult_lt_0_compat; lra.
  - pose proof (pow2_ge_0 (s - 1 / 2)) as Hsq. simpl in Hsq. lra.
Qed.

Lemma tanh_range (v : R) : -1 < Rtrigo_def.tanh v < 1.
Proof.
  unfold Rtrigo_def.tanh, sinh, cosh.
  pose proof (exp_pos v) as Ha. pose proof (exp_pos (- v)) as Hb.
  set (a := exp v) in *. set (b := exp (- v)) in *.
  replace ((a - b) / 2 / ((a + b) / 2)) with ((a - b) / (a + b))
    by (field; lra).
  assert (Hd : 0 < a + b) by lra.
  split.
  - apply Rmult_lt_reg_r with (a + b); [assumption|].
    unfold Rdiv. rewrite Rmult_assoc, Rinv_l by lra. lra.
  - apply Rmult_lt_reg_r with (a + b); [assumption|].
    unfold Rdiv. rewrite Rmult_assoc, Rinv_l by lra. lra.
Qed.

Lemma tanh_derivative1_real (v : R) :
  tanh_derivative1 v = 1 - Rtrigo_def.tanh v ^ 2.
Proof. reflexivity. Qed.

Lemma tanh_derivative1_range (v : R) : 0 <= tanh_derivative1 v <= 1.
Proof.
  rewrite tanh_derivative1_real. pose proof (tanh_range v) as [H0 H1].
  set (t := Rtrigo_def.tanh v) in *. simpl.
  assert (Ht : 0 < (1 - t) * (1 + t)) by (apply Rmult_lt_0_compat; lra).
  pose proof (pow2_ge_0 t) as Hsq. simpl in Hsq. lra.
Qed.

Lemma relu_derivative1_positive (v : R) : 0 < v -> relu_derivative1 v = 1.
Proof.
  intros Hv. unfold relu_derivative1.
  change (f_gt v f_zero) with (f_gt v 0).
  now rewrite (proj2 (f_gt_real v 0) Hv).
Qed.

Lemma relu_derivative1_nonpositive (v : R) : v <= 0 -> relu_derivative1 v = 0.
Proof.
  intros Hv. unfold relu_derivative1.
  change (f_gt v f_zero) with (f_gt v 0).
  destruct (f_gt v 0) eqn:E; [|reflexivity].
  apply f_gt_real in E. lra.
Qed.

Lemma tanh_0 : Rtrigo_def.tanh 0 = 0.
Proof.
  unfold Rtrigo_def.tanh, sinh, cosh. rewrite Ropp_0, exp_0. field.
Qed.

End RealRanges.

Lemma Forall2_map_right {A B} (P : A -> B -> Prop) (f : A -> B) (l : list A) :
  (forall v, P v (f v)) -> Forall2 P l (map f l).
Proof.
  intros Hf. induction l as [|v l IH]; simpl; constructor; auto.
Qed.

(** ** The derivatives, element by element *)

Section DerivativeClaims.
Local Open Scope R_scope.

(** C5, in exact arithmetic. For every array [x] of reals, each element [e]
    of the result stands against the element [v] of [x] at the same place as
    follows: [tanh_derivative]: [e = 1 - tanh(v)²] and [0 <= e <= 1];
    [relu_derivative]: [e = 1] when [v > 0] and [e = 0] when [v <= 0];
    [sigmoid_derivative]: [e = s·(1 - s)] with [s = 1/(1 + exp(-v))] the
    element of [sigmoid(x)], and [0 < e <= 1/4].  No call raises, and
    [sigmoid_derivative(x)] is the array product [sigmoid(x) * (1 - sigmoid(x))]. *)
Theorem activation_derivatives_real (x : ndarray R) :
  wf x ->
  exists t r s g,
    tanh_derivative x = inr t /\ shape t = shape x /\
    Forall2 (fun v e => e = 1 - Rtrigo_def.tanh v ^ 2 /\ 0 <= e <= 1)
            (data x) (data t) /\
    relu_derivative x = inr r /\ shape r = shape x /\
    Forall2 (fun v e => (0 < v -> e = 1) /\ (v <= 0 -> e = 0))
            (data x) (data r) /\
    sigmoid x = inr s /\ mul s (rsub 1 s) = inr g /\
    sigmoid_derivative x = inr g /\ shape g = shape x /\
    Forall2 (fun v e =>
               e = 1 / (1 + exp (- v)) * (1 - 1 / (1 + exp (- v))) /\
               0 < e <= 1 / 4)
            (data x) (data g).
Proof.
  intros Hx.
  exists (amap tanh_derivative1 x), (amap relu_derivative1 x),
         (amap sigmoid1 x), (amap sigmoid_derivative1 x).
  split; [apply tanh_derivative_amap|]. split; [reflexivity|].
  split.
  { apply Forall2_map_right. intros v. split; [reflexivity|].
    apply tanh_derivative1_range. }
  split; [apply relu_derivative_amap|]. split; [reflexivity|].
  split.
  { apply Forall2_map_right. intros v. split.
    - apply relu_derivative1_positive.
    - apply relu_derivative1_nonpositive. }
  split; [apply sigmoid_amap|].
  pose proof (sigmoid_derivative_elementwise Hx) as Hg.
  unfold sigmoid_derivative in Hg. rewrite sigmoid_amap in Hg.
  split; [exact Hg|].
  split; [apply (sigmoid_derivative_elementwise Hx)|]. split; [reflexivity|].
  apply Forall2_map_right. intros v. split; [reflexivity|].
  apply sigmoid_derivative1_range.
Qed.

Lemma activation_derivatives_real_example :
  exists g, sigmoid_derivative (NDArray 1 2 [0; 1]) = inr g /\
            Forall (fun e => 0 < e <= 1 / 4) (data g).
Proof.
  destruct (@activation_derivatives_real (NDArray 1 2 [0; 1]) eq_refl)
    as (t & r & s & g & _ & _ & _ & _ & _ & _ & _ & _ & Hg & _ & Hrange).
  exists g. split; [exact Hg|].
  clear -Hrange. induction Hrange as [|v e l l' [_ He] _ IH]; constructor;
    assumption.
Defined.

End DerivativeClaims.

(** In binary64 the sigmoid of 1000 is exactly 1 ([exp(-1000)] underflows
    to 0), so [sigmoid_derivative] returns exactly 0 there: the element is
    not greater than 0. *)
Lemma sigmoid_derivative_saturates :
  sigmoid (NDArray 1 1 [Some 1000%float]) = inr (NDArray 1 1 [Some 1%float]) /\
  sigmoid_derivative (NDArray 1 1 [Some 1000%float]) =
    inr (NDArray 1 1 [Some 0%float]) /\
  f_gt (Some 0%float) f_zero = false.
Proof. repeat split; vm_compute; reflexivity. Qed.

(** ** The range of the output of forward *)

(** An instance over the reals with one input, one hidden unit and one
    output, all weights 1 and all biases 0, tanh activation and learning
    rate [l]. *)
Definition unit_mlp (l : R) : MLP R :=
  Build_MLP l (NDArray 1 1 [1%R]) (NDArray 1 1 [0%R])
    (NDArray 1 1 [1%R]) (NDArray 1 1 [0%R])
    tanh tanh_derivative None ∅ None None None None.

Lemma unit_mlp_ok (l : R) : instance_ok 1 1 1 (unit_mlp l).
Proof.
  split.
  - constructor; reflexivity.
  - exists "tanh", tanh, tanh_derivative. repeat split; reflexivity.
Defined.

Section OutputRange.
Local Open Scope R_scope.

(** C6, in exact arithmetic. On an instance over the reals and a batch [X]
    with as many columns as the instance has inputs, [forward] returns an
    array whose every element is strictly between 0 and 1. *)
Theorem forward_output_in_unit_interval_real (d h o : nat) (s : MLP R)
    (X : ndarray R) :
  instance_ok d h o s -> ncols X = d ->
  exists a2 s',
    forward X s = (inr a2, s') /\ shape a2 = (nrows X, o) /\
    Forall (fun e => 0 < e < 1) (data a2).
Proof.
  intros [Hs Hc] HX.
  destruct (configured_kernels Hc) as (k & k' & _ & Hk & _).
  eexists. eexists.
  split; [exact (@forward_run R _ d h o s X k Hs Hk HX)|].
  split.
  - destruct Hs as [_ _ S3 _]. unfold shape in *; simpl.
    injection S3 as _ ->. reflexivity.
  - simpl. apply List.Forall_forall. intros e He.
    apply in_map_iff in He. destruct He as (v & <- & _).
    apply sigmoid1_range.
Qed.

Lemma forward_output_example_real :
  exists a2, fst (forward (NDArray 2 1 [0; 0]) (unit_mlp (1 / 100))) = inr a2 /\
             Forall (fun e => 0 < e < 1) (data a2).
Proof.
  destruct (@forward_output_in_unit_interval_real 1 1 1 (unit_mlp (1 / 100))
              (NDArray 2 1 [0; 0]) (unit_mlp_ok (1 / 100)) eq_refl)
    as (a2 & s' & Hrun & _ & Hrange).
  exists a2. rewrite Hrun. split; [reflexivity | exact Hrange].
Defined.

End OutputRange.

(** [MLP(2, 3, 1, 0.01, 'relu')] under the constant generator: every weight
    is 0.1 and every bias 0. *)
Definition relu_mlp : MLP binary64 :=
  @fresh binary64 unit _ _ 2 3 1 (Some 0x1.47ae147ae147bp-7%float)
    relu relu_derivative.

Lemma relu_mlp_init :
  MLP_init 2 3 1 (Some 0x1.47ae147ae147bp-7%float) "relu" tt =
  (inr relu_mlp, tt).
Proof. rewrite MLP_init_run. reflexivity. Qed.

(** In binary64, on that instance and the one-row batch [[100000, 0]], the
    output pre-activation is about 3000, [exp(-3000)] underflows to 0 and
    [forward] returns exactly 1.0, which is not smaller than 1. *)
Lemma forward_output_saturates :
  fst (forward (NDArray 1 2 [Some 100000%float; Some 0%float]) relu_mlp) =
    inr (NDArray 1 1 [Some 1%float]) /\
  f_gt f_one (Some 1%float) = false.
Proof. split; vm_compute; reflexivity. Qed.

(** ** One step of descent and the squared error *)

Section Loss.
Context {F : Type} `{Float64Ops F}.

(** The mean over all elements of [(p - y)²]: the loss the specification
    measures a step by.  The program itself never computes it. *)
Definition mse (p y : ndarray F) : F :=
  f_div
    (sum_range (nrows p) (fun i =>
       sum_range (ncols p) (fun j => f_pow (f_sub p.[i, j] y.[i, j]) 2)))
    (f_of_nat (nrows p * ncols p)).

(** The loss of the predictions of [s] on the batch. *)
Definition loss_on (s : MLP F) (X y : ndarray F) : outcome F :=
  match fst (forward X s) with
  | inr p => inr (mse p y)
  | inl e => inl e
  end.

(** The gradient stored under [name] exists and all its elements are [z]. *)
Definition gradient_is (z : F) (s : MLP F) (name : string) : Prop :=
  exists g, gradients s !! name = Some g /\ Forall (fun e => e = z) (data g).

Lemma item_Forall (P : F -> Prop) (a : ndarray F) (i j : nat) :
  wf a -> Forall P (data a) -> i < nrows a -> j < ncols a -> P a.[i, j].
Proof.
  intros Ha Hall Hi Hj. unfold item.
  apply (proj1 (List.Forall_forall P (data a)) Hall).
  apply nth_In. rewrite Ha. nia.
Qed.

End Loss.

Section Stationary.
Local Open Scope R_scope.

Lemma descent_stationary (l : R) (P G : ndarray R) :
  wf P ->
  (forall i j, (i < nrows P)%nat -> (j < ncols P)%nat -> G.[i, j] = 0) ->
  descent l P G = P.
Proof.
  intros HP HG. rewrite <- (tabulate_item f_zero HP) at 2.
  unfold descent. apply tabulate_ext. intros i j Hi Hj.
  rewrite HG by assumption. simpl. ring.
Qed.

(** The parameters are arrays: each has as many elements as its shape says. *)
Definition parameters_wf (s : MLP R) : Prop :=
  wf (W1 s) /\ wf (b1 s) /\ wf (W2 s) /\ wf (b2 s).

(** C3, amended. When the four gradients that [backward] computes after
    [forward X] are all zero, the step changes no parameter, whatever the
    learning rate, and the loss of the predictions on the batch is the same
    after the step as before: it does not decrease. *)
Theorem backward_at_stationary_point (d h o : nat) (s0 : MLP R)
    (X y : ndarray R) :
  instance_ok d h o s0 -> parameters_wf s0 ->
  ncols X = d -> shape y = (nrows X, o) ->
  let s1 := snd (forward X s0) in
  let s2 := snd (backward X y s1) in
  gradient_is 0 s2 "W1" -> gradient_is 0 s2 "b1" ->
  gradient_is 0 s2 "W2" -> gradient_is 0 s2 "b2" ->
  fst (backward X y s1) = inr tt /\
  W1 s2 = W1 s0 /\ b1 s2 = b1 s0 /\ W2 s2 = W2 s0 /\ b2 s2 = b2 s0 /\
  loss_on s2 X y = loss_on s0 X y.
Proof.
  intros [Hs Hc] (HW1 & Hb1 & HW2 & Hb2) HX Hy.
  destruct (configured_kernels Hc) as (k & k' & Hkk & Hk & Hk').
  pose proof (@forward_run R _ d h o s0 X k Hs Hk HX) as Hf.
  cbv zeta in Hf. cbv zeta. rewrite Hf. cbn [snd].
  pose proof Hs as [S1 S2 S3 S4]. unfold shape in *.
  injection S1 as R1 C1. injection S2 as R2 C2.
  injection S3 as R3 C3. injection S4 as R4 C4.
  set (z1 := affine X (W1 s0) (b1 s0)) in *.
  set (a1 := amap k z1) in *.
  set (z2 := affine a1 (W2 s0) (b2 s0)) in *.
  set (a2 := amap sigmoid1 z2) in *.
  eassert (Hb : backward X y (cached s0 z1 a1 z2 a2) = _).
  { apply (@backward_run R _ d h o (nrows X) (cached s0 z1 a1 z2 a2)
             X y z1 a1 a2 k').
    - destruct Hs. constructor; assumption.
    - exact Hk'.
    - reflexivity.
    - reflexivity.
    - reflexivity.
    - apply wf_tabulate.
    - unfold shape; simpl. now rewrite C1.
    - unfold shape; simpl. now rewrite C1.
    - unfold shape; simpl. now rewrite C3.
    - unfold shape. now rewrite HX.
    - exact Hy. }
  cbv zeta in Hb. rewrite Hb. cbn [fst snd].
  unfold gradient_is, updated, cached. attrs.
  intros (g1 & L1 & Z1') (g2 & L2 & Z2') (g3 & L3 & Z3') (g4 & L4 & Z4').
  rewrite !lookup_insert_ne in L3 by done. rewrite lookup_insert_eq in L3.
  rewrite !lookup_insert_ne in L4 by done. rewrite lookup_insert_eq in L4.
  rewrite !lookup_insert_ne in L1 by done. rewrite lookup_insert_eq in L1.
  rewrite lookup_insert_eq in L2.
  injection L1 as <-. injection L2 as <-.
  injection L3 as <-. injection L4 as <-.
  assert (E1 : descent (lr s0) (W1 s0)
                 (grad_weights X (hidden_delta (residual a2 y) (W2 s0) k' z1)
                    (nrows X)) = W1 s0).
  { apply descent_stationary; [assumption|]. intros i j Hi Hj.
    apply (item_Forall (P := fun e => e = 0));
      first [assumption | apply wf_tabulate | simpl; lia]. }
  assert (E2 : descent (lr s0) (b1 s0)
                 (grad_bias (hidden_delta (residual a2 y) (W2 s0) k' z1)
                    (nrows X)) = b1 s0).
  { apply descent_stationary; [assumption|]. intros i j Hi Hj.
    apply (item_Forall (P := fun e => e = 0));
      first [assumption | apply wf_tabulate | simpl; lia]. }
  assert (E3 : descent (lr s0) (W2 s0)
                 (grad_weights a1 (residual a2 y) (nrows X)) = W2 s0).
  { apply descent_stationary; [assumption|]. intros i j Hi Hj.
    apply (item_Forall (P := fun e => e = 0));
      first [assumption | apply wf_tabulate | simpl; lia]. }
  assert (E4 : descent (lr s0) (b2 s0)
                 (grad_bias (residual a2 y) (nrows X)) = b2 s0).
  { apply descent_stationary; [assumption|]. intros i j Hi Hj.
    apply (item_Forall (P := fun e => e = 0));
      first [assumption | apply wf_tabulate | simpl; lia]. }
  rewrite E1, E2, E3, E4.
  repeat (split; [reflexivity|]).
  unfold loss_on. rewrite Hf.
  erewrite (@forward_run R _ d h o _ X k); try eassumption.
  - reflexivity.
  - constructor; unfold shape; attrs; congruence.
Qed.

End Stationary.

(** ** A step that does not decrease the loss *)

(** Concrete arrays of reals are computed down to their elements. *)
Ltac eval_arrays :=
  unfold mse, affine, residual, grad_weights, grad_bias, hidden_delta,
    descent, amap, tabulate, sum_range, item;
  cbn [nrows ncols data seq flat_map map app fold_left nth Nat.mul Nat.add
       f_add f_sub f_mul f_div f_zero f_one f_of_nat f_pow f_tanh R_ops].

Section Stalled.
Local Open Scope R_scope.

(** Two samples at the origin, one of each class. *)
Definition origin_X : ndarray R := NDArray 2 1 [0; 0].
Definition origin_y : ndarray R := NDArray 2 1 [0; 1].

Definition zeros21 : ndarray R := NDArray 2 1 [0; 0].
Definition halves21 : ndarray R := NDArray 2 1 [1 / 2; 1 / 2].
Definition zero11 : ndarray R := NDArray 1 1 [0].

Lemma sigmoid1_0 : sigmoid1 0 = 1 / 2.
Proof. rewrite sigmoid1_real, Ropp_0, exp_0. lra. Qed.

Lemma tanh_derivative1_0 : tanh_derivative1 0 = 1.
Proof. rewrite tanh_derivative1_real, tanh_0. lra. Qed.

Lemma unit_parameters_forward (s : MLP R) :
  elementwise (activation_fn s) f_tanh ->
  W1 s = NDArray 1 1 [1] -> b1 s = NDArray 1 1 [0] ->
  W2 s = NDArray 1 1 [1] -> b2 s = NDArray 1 1 [0] ->
  forward origin_X s =
  (inr halves21, cached s zeros21 zeros21 zeros21 halves21).
Proof.
  intros Hk E1 E2 E3 E4.
  rewrite (@forward_run R _ 1 1 1 s origin_X f_tanh);
    [ | constructor; rewrite ?E1, ?E2, ?E3, ?E4; reflexivity
      | assumption | reflexivity ].
  rewrite E1, E2, E3, E4.
  assert (Ez1 : affine origin_X (NDArray 1 1 [1]) (NDArray 1 1 [0]) = zeros21).
  { unfold origin_X, zeros21. eval_arrays. repeat f_equal; lra. }
  rewrite Ez1.
  assert (Ea1 : amap f_tanh zeros21 = zeros21).
  { unfold zeros21. eval_arrays. now rewrite tanh_0. }
  rewrite Ea1.
  assert (Ez2 : affine zeros21 (NDArray 1 1 [1]) (NDArray 1 1 [0]) = zeros21).
  { unfold zeros21. eval_arrays. repeat f_equal; lra. }
  rewrite Ez2.
  assert (Ea2 : amap sigmoid1 zeros21 = halves21).
  { unfold zeros21, halves21. eval_arrays. now rewrite sigmoid1_0. }
  rewrite Ea2. reflexivity.
Qed.

Lemma unit_mlp_forward (l : R) :
  forward origin_X (unit_mlp l) =
  (inr halves21, cached (unit_mlp l) zeros21 zeros21 zeros21 halves21).
Proof.
  apply unit_parameters_forward; try reflexivity. apply tanh_elementwise.
Qed.

(** The state after [forward] and [backward] on that batch: the four
    gradients are zero and the parameters are the ones of [unit_mlp l]. *)
Definition unit_mlp_after (l : R) : MLP R :=
  updated (cached (unit_mlp l) zeros21 zeros21 zeros21 halves21)
    (W1 (unit_mlp l)) (b1 (unit_mlp l)) (W2 (unit_mlp l)) (b2 (unit_mlp l))
    (<["b1" := zero11]> (<["W1" := zero11]> (<["b2" := zero11]>
       (<["W2" := zero11]> ∅)))).

Lemma unit_mlp_backward (l : R) :
  backward origin_X origin_y
    (cached (unit_mlp l) zeros21 zeros21 zeros21 halves21) =
  (inr tt, unit_mlp_after l).
Proof.
  rewrite (@backward_run R _ 1 1 1 2
             (cached (unit_mlp l) zeros21 zeros21 zeros21 halves21)
             origin_X origin_y zeros21 zeros21 halves21 tanh_derivative1);
    try reflexivity;
    [ | constructor; reflexivity | apply tanh_derivative_elementwise ].
  unfold unit_mlp_after, updated, cached, unit_mlp. attrs.
  assert (G2 : grad_weights zeros21 (residual halves21 origin_y) 2 = zero11).
  { unfold zeros21, halves21, origin_y, zero11. eval_arrays.
    repeat f_equal. unfold Rdiv. ring. }
  assert (B2 : grad_bias (residual halves21 origin_y) 2 = zero11).
  { unfold halves21, origin_y, zero11. eval_arrays.
    repeat f_equal. unfold Rdiv. replace (0 + (1 * / 2 - 0) + (1 * / 2 - 1))
      with 0 by lra. ring. }
  assert (D1 : hidden_delta (residual halves21 origin_y) (NDArray 1 1 [1])
                 tanh_derivative1 zeros21 =
               NDArray 2 1 [1 / 2; - (1 / 2)]).
  { unfold zeros21, halves21, origin_y. eval_arrays.
    rewrite tanh_derivative1_0. repeat f_equal; lra. }
  assert (G1 : grad_weights origin_X (NDArray 2 1 [1 / 2; - (1 / 2)]) 2 = zero11).
  { unfold origin_X, zero11. eval_arrays. repeat f_equal. unfold Rdiv. ring. }
  assert (B1 : grad_bias (NDArray 2 1 [1 / 2; - (1 / 2)]) 2 = zero11).
  { unfold zero11. eval_arrays. repeat f_equal. unfold Rdiv.
    replace (0 + 1 * / 2 + - (1 * / 2)) with 0 by lra. ring. }
  rewrite G2, B2, D1, G1, B1.
  assert (U : forall v : R, descent l (NDArray 1 1 [v]) zero11 = NDArray 1 1 [v]).
  { intros v. unfold zero11. eval_arrays. repeat f_equal. ring. }
  rewrite !U. reflexivity.
Qed.

Lemma unit_mlp_after_forward (l : R) :
  fst (forward origin_X (unit_mlp_after l)) = inr halves21.
Proof.
  rewrite unit_parameters_forward; try reflexivity. apply tanh_elementwise.
Qed.

Lemma mse_halves : mse halves21 origin_y = 1 / 4.
Proof.
  unfold halves21, origin_y. eval_arrays.
  cbn [INR pow Nat.mul Nat.add]. field.
Qed.

End Stalled.

Section StalledClaims.
Local Open Scope R_scope.

Lemma unit_mlp_step (l : R) :
  snd (backward origin_X origin_y (snd (forward origin_X (unit_mlp l)))) =
  unit_mlp_after l.
Proof. now rewrite unit_mlp_forward; cbn [snd]; rewrite unit_mlp_backward. Qed.

Lemma unit_mlp_gradients_vanish (l : R) (name : string) :
  name = "W1" \/ name = "b1" \/ name = "W2" \/ name = "b2" ->
  gradient_is 0
    (snd (backward origin_X origin_y (snd (forward origin_X (unit_mlp l)))))
    name.
Proof.
  intros Hn. rewrite unit_mlp_step. exists zero11. split.
  - unfold unit_mlp_after, updated. attrs.
    destruct Hn as [-> | [-> | [-> | ->]]];
      rewrite ?lookup_insert_ne by done; apply lookup_insert_eq.
  - unfold zero11; simpl. constructor; [reflexivity | constructor].
Qed.

Lemma unit_mlp_wf (l : R) : parameters_wf (unit_mlp l).
Proof. repeat split. Defined.

(** C3 fails at [unit_mlp l] on the batch of two samples at the origin
    with labels 0 and 1: the predictions are 1/2 and 1/2, the loss is 1/4,
    the four gradients are zero, and after [backward] the parameters and
    the loss are what they were, at learning rate 1/100 and at every
    other. *)
Lemma descent_step_keeps_loss :
  loss_on (unit_mlp (1 / 100)) origin_X origin_y = inr (1 / 4) /\
  loss_on (snd (backward origin_X origin_y
                  (snd (forward origin_X (unit_mlp (1 / 100))))))
          origin_X origin_y = inr (1 / 4) /\
  forall l : R,
    let s1 := snd (forward origin_X (unit_mlp l)) in
    let s2 := snd (backward origin_X origin_y s1) in
    fst (forward origin_X (unit_mlp l)) = inr halves21 /\
    fst (backward origin_X origin_y s1) = inr tt /\
    W1 s2 = W1 (unit_mlp l) /\ b1 s2 = b1 (unit_mlp l) /\
    W2 s2 = W2 (unit_mlp l) /\ b2 s2 = b2 (unit_mlp l) /\
    loss_on (unit_mlp l) origin_X origin_y = inr (1 / 4) /\
    loss_on s2 origin_X origin_y = inr (1 / 4).
Proof.
  assert (Hbefore : forall l, loss_on (unit_mlp l) origin_X origin_y =
                              inr (1 / 4)).
  { intros l. unfold loss_on. rewrite unit_mlp_forward. cbn [fst].
    now rewrite mse_halves. }
  assert (Hafter : forall l,
            loss_on (snd (backward origin_X origin_y
                            (snd (forward origin_X (unit_mlp l)))))
                    origin_X origin_y = inr (1 / 4)).
  { intros l. rewrite unit_mlp_step. unfold loss_on.
    rewrite unit_mlp_after_forward. now rewrite mse_halves. }
  split; [apply Hbefore|]. split; [apply Hafter|].
  intros l. cbv zeta.
  split; [now rewrite unit_mlp_forward|].
  split.
  { rewrite unit_mlp_forward. cbn [snd]. now rewrite unit_mlp_backward. }
  rewrite unit_mlp_step.
  repeat (split; [reflexivity|]).
  split; [apply Hbefore|]. rewrite <- unit_mlp_step. apply Hafter.
Qed.

Lemma backward_at_stationary_point_example :
  loss_on (snd (backward origin_X origin_y
                  (snd (forward origin_X (unit_mlp (1 / 100))))))
          origin_X origin_y =
  loss_on (unit_mlp (1 / 100)) origin_X origin_y.
Proof.
  refine (proj2 (proj2 (proj2 (proj2 (proj2
    (@backward_at_stationary_point 1 1 1 (unit_mlp (1 / 100))
       origin_X origin_y (unit_mlp_ok _) (unit_mlp_wf _) eq_refl eq_refl
       _ _ _ _))))));
    apply unit_mlp_gradients_vanish; auto.
Defined.

End StalledClaims.

(** * Further properties of the code *)

(** ** The derivative functions are derivatives *)

Section Derivatives.
Local Open Scope R_scope.

Lemma cosh_pos (v : R) : 0 < cosh v.
Proof.
  unfold cosh. pose proof (exp_pos v). pose proof (exp_pos (- v)). lra.
Qed.

Lemma tanh_has_derivative (v : R) :
  derivable_pt_lim Rtrigo_def.tanh v (tanh_derivative1 v).
Proof.
  pose proof (cosh_pos v) as Hc.
  pose proof (derivable_pt_lim_div sinh cosh v (cosh v) (sinh v)
                (derivable_pt_lim_sinh v) (derivable_pt_lim_cosh v)
                ltac:(lra)) as H.
  replace (tanh_derivative1 v)
    with ((cosh v * cosh v - sinh v * sinh v) / Rsqr (cosh v)); [exact H|].
  rewrite tanh_derivative1_real. unfold Rtrigo_def.tanh, Rsqr.
  set (c := cosh v) in *. set (s := sinh v). simpl. field. lra.
Qed.

Lemma sigmoid_has_derivative (v : R) :
  derivable_pt_lim sigmoid1 v (sigmoid_derivative1 v).
Proof.
  pose proof (exp_pos (- v)) as He.
  assert (Hopp : derivable_pt_lim (- id)%F v (- 1))
    by (apply derivable_pt_lim_opp, derivable_pt_lim_id).
  assert (Hexp : derivable_pt_lim (comp exp (- id)%F) v (exp (- v) * - 1)).
  { apply derivable_pt_lim_comp; [exact Hopp|]. apply derivable_pt_lim_exp. }
  assert (Hden : derivable_pt_lim (fct_cte 1 + comp exp (- id)%F)%F v
                   (0 + exp (- v) * - 1)).
  { apply derivable_pt_lim_plus; [apply derivable_pt_lim_const | exact Hexp]. }
  pose proof (derivable_pt_lim_div (fct_cte 1)
                (fct_cte 1 + comp exp (- id)%F)%F v 0 (0 + exp (- v) * - 1)
                (derivable_pt_lim_const 1 v) Hden) as H.
  assert (Hne : (fct_cte 1 + comp exp (- id)%F)%F v <> 0).
  { unfold plus_fct, fct_cte, comp, opp_fct, id. lra. }
  specialize (H Hne).
  replace (sigmoid_derivative1 v)
    with ((0 * (fct_cte 1 + comp exp (- id)%F)%F v -
           (0 + exp (- v) * - 1) * fct_cte 1 v) /
          Rsqr ((fct_cte 1 + comp exp (- id)%F)%F v)); [exact H|].
  rewrite sigmoid_derivative1_real, sigmoid1_real.
  unfold plus_fct, fct_cte, comp, opp_fct, id, Rsqr. field. lra.
Qed.

Lemma relu1_real (v : R) : relu1 v = Rmax 0 v.
Proof. reflexivity. Qed.

Lemma relu_has_derivative_right (v : R) :
  0 < v -> derivable_pt_lim relu1 v 1.
Proof.
  intros Hv eps Heps. exists (mkposreal v Hv). intros h Hh Hsmall.
  simpl in Hsmall. rewrite !relu1_real.
  assert (Hvh : 0 < v + h).
  { destruct (Rcase_abs h) as [Hn|Hp].
    - rewrite (Rabs_left h Hn) in Hsmall. lra.
    - lra. }
  rewrite !Rmax_right by lra.
  replace ((v + h - v) / h - 1) with 0 by (field; assumption).
  rewrite Rabs_R0. assumption.
Qed.

Lemma relu_has_derivative_left (v : R) :
  v < 0 -> derivable_pt_lim relu1 v 0.
Proof.
  intros Hv eps Heps.
  assert (Hpos : 0 < - v) by lra.
  exists (mkposreal (- v) Hpos). intros h Hh Hsmall.
  simpl in Hsmall. rewrite !relu1_real.
  assert (Hvh : v + h < 0).
  { destruct (Rcase_abs h) as [Hn|Hp].
    - lra.
    - rewrite (Rabs_right h Hp) in Hsmall. lra. }
  rewrite !Rmax_left by lra.
  replace ((0 - 0) / h - 0) with 0 by (field; assumption).
  rewrite Rabs_R0. assumption.
Qed.

Lemma relu_has_no_derivative_at_0 (l : R) : ~ derivable_pt_lim relu1 0 l.
Proof.
  intros H. destruct (H (1 / 2) ltac:(lra)) as [delta Hd].
  pose proof (cond_pos delta) as Hpos.
  assert (Hr : Rabs (delta / 2) < delta) by (rewrite Rabs_right; lra).
  assert (Hl : Rabs (- (delta / 2)) < delta)
    by (rewrite Rabs_Ropp, Rabs_right; lra).
  pose proof (Hd (delta / 2) ltac:(lra) Hr) as H1.
  pose proof (Hd (- (delta / 2)) ltac:(lra) Hl) as H2.
  rewrite !relu1_real in H1, H2.
  rewrite Rplus_0_l in H1, H2.
  rewrite (Rmax_right 0 (delta / 2)) in H1 by lra.
  rewrite (Rmax_left 0 (- (delta / 2))) in H2 by lra.
  rewrite (Rmax_left 0 0) in H1, H2 by lra.
  replace ((delta / 2 - 0) / (delta / 2)) with 1 in H1 by (field; lra).
  replace ((0 - 0) / - (delta / 2)) with 0 in H2 by (field; lra).
  apply Rabs_def2 in H1. apply Rabs_def2 in H2. lra.
Qed.

End Derivatives.

Section DerivativeProperties.
Local Open Scope R_scope.

(** Over the reals, [tanh(x)] holds the hyperbolic tangent of every element
    of [x], and every element of [tanh_derivative(x)] is the derivative of
    the hyperbolic tangent at the element of [x] at the same place. *)
Theorem tanh_derivative_is_the_derivative (x : ndarray R) :
  exists t t',
    tanh x = inr t /\ tanh_derivative x = inr t' /\
    shape t = shape x /\ shape t' = shape x /\
    data t = map Rtrigo_def.tanh (data x) /\
    Forall2 (fun v e => derivable_pt_lim Rtrigo_def.tanh v e)
            (data x) (data t').
Proof.
  exists (amap f_tanh x), (amap tanh_derivative1 x).
  split; [reflexivity|]. split; [apply tanh_derivative_amap|].
  repeat (split; [reflexivity|]).
  apply Forall2_map_right. exact tanh_has_derivative.
Qed.

(** Over the reals, [sigmoid(x)] holds [1/(1 + exp(-v))] for every element
    [v] of [x], and every element of [sigmoid_derivative(x)] is the
    derivative of that function at the element of [x] at the same place. *)
Theorem sigmoid_derivative_is_the_derivative (x : ndarray R) :
  wf x ->
  exists s s',
    sigmoid x = inr s /\ sigmoid_derivative x = inr s' /\
    shape s = shape x /\ shape s' = shape x /\
    data s = map (fun v => 1 / (1 + exp (- v))) (data x) /\
    Forall2 (fun v e => derivable_pt_lim (fun u => 1 / (1 + exp (- u))) v e)
            (data x) (data s').
Proof.
  intros Hx.
  exists (amap sigmoid1 x), (amap sigmoid_derivative1 x).
  split; [apply sigmoid_amap|].
  split; [apply (sigmoid_derivative_elementwise Hx)|].
  repeat (split; [reflexivity|]).
  apply Forall2_map_right. exact sigmoid_has_derivative.
Qed.

Lemma sigmoid_derivative_is_the_derivative_example :
  exists s', sigmoid_derivative (NDArray 1 2 [0; 1]) = inr s' /\
    Forall2 (fun v e => derivable_pt_lim (fun u => 1 / (1 + exp (- u))) v e)
            [0; 1] (data s').
Proof.
  destruct (@sigmoid_derivative_is_the_derivative (NDArray 1 2 [0; 1]) eq_refl)
    as (s & s' & _ & Hs' & _ & _ & _ & Hd).
  exists s'. split; [exact Hs' | exact Hd].
Defined.

(** Over the reals, [relu(x)] holds [max(0, v)] for every element [v] of
    [x].  Where [v] is not 0 the element of [relu_derivative(x)] is the
    derivative of [max(0, ·)] at [v]; where [v] is 0 that function has no
    derivative and [relu_derivative] gives 0. *)
Theorem relu_derivative_is_the_derivative (x : ndarray R) :
  exists r r',
    relu x = inr r /\ relu_derivative x = inr r' /\
    shape r = shape x /\ shape r' = shape x /\
    data r = map (Rmax 0) (data x) /\
    Forall2 (fun v e =>
               (v <> 0 -> derivable_pt_lim (Rmax 0) v e) /\
               (v = 0 -> e = 0 /\ forall l, ~ derivable_pt_lim (Rmax 0) 0 l))
            (data x) (data r').
Proof.
  exists (amap relu1 x), (amap relu_derivative1 x).
  split; [reflexivity|]. split; [apply relu_derivative_amap|].
  repeat (split; [reflexivity|]).
  apply Forall2_map_right. intros v. split.
  - intros Hv. destruct (Rtotal_order v 0) as [Hn | [H0 | Hp]].
    + rewrite relu_derivative1_nonpositive by lra.
      exact (relu_has_derivative_left Hn).
    + contradiction.
    + rewrite relu_derivative1_positive by lra.
      exact (relu_has_derivative_right Hp).
  - intros ->. split.
    + apply relu_derivative1_nonpositive. lra.
    + exact relu_has_no_derivative_at_0.
Qed.

(** Over the reals the hidden activations are bounded as follows: every
    element of [tanh(x)] is strictly between -1 and 1, every element of
    [sigmoid(x)] strictly between 0 and 1, and every element [e] of
    [relu(x)] is at least 0, equal to the element [v] of [x] when [v >= 0]
    and to 0 when [v <= 0]. *)
Theorem activation_ranges (x : ndarray R) :
  exists t s r,
    tanh x = inr t /\ sigmoid x = inr s /\ relu x = inr r /\
    Forall (fun e => -1 < e < 1) (data t) /\
    Forall (fun e => 0 < e < 1) (data s) /\
    Forall2 (fun v e => 0 <= e /\ (0 <= v -> e = v) /\ (v <= 0 -> e = 0))
            (data x) (data r).
Proof.
  exists (amap f_tanh x), (amap sigmoid1 x), (amap relu1 x).
  split; [reflexivity|]. split; [apply sigmoid_amap|]. split; [reflexivity|].
  split.
  { apply List.Forall_forall. intros e He. simpl in He.
    apply in_map_iff in He. destruct He as (v & <- & _). apply tanh_range. }
  split.
  { apply List.Forall_forall. intros e He. simpl in He.
    apply in_map_iff in He. destruct He as (v & <- & _).
    apply sigmoid1_range. }
  apply Forall2_map_right. intros v. rewrite relu1_real.
  repeat split.
  - apply Rmax_l.
  - intros Hv. now apply Rmax_right.
  - intros Hv. now apply Rmax_left.
Qed.

End DerivativeProperties.

(** ** Errors of forward and backward, and what they leave behind *)

Section ErrorPaths.
Context {F : Type} `{Float64Ops F}.

(** A batch whose number of columns is not the number of rows of [W1] makes
    [forward] raise [ValueError] at the first product, before anything is
    cached: the instance is exactly as it was. *)
Theorem forward_wrong_columns (s : MLP F) (X : ndarray F) :
  ncols X <> nrows (W1 s) -> forward X s = (inl ValueError, s).
Proof.
  intros Hc. unfold forward. rewrite step_attr.
  now rewrite (step_lift_raise _ _ (matmul_error _ _ Hc)).
Qed.

(** What [backward] never writes: the forward cache, the learning rate and
    the two activation attributes. *)
Definition same_cache (s s' : MLP F) : Prop :=
  Z1 s' = Z1 s /\ A1 s' = A1 s /\ Z2 s' = Z2 s /\ A2 s' = A2 s /\
  hidden_features s' = hidden_features s /\ lr s' = lr s /\
  activation_fn s' = activation_fn s /\
  activation_derivative s' = activation_derivative s.

Definition keeps_cache {A} (c : M (MLP F) A) : Prop :=
  forall s, same_cache s (snd (c s)).

Lemma same_cache_refl (s : MLP F) : same_cache s s.
Proof. repeat split. Qed.

Lemma same_cache_trans (s1 s2 s3 : MLP F) :
  same_cache s1 s2 -> same_cache s2 s3 -> same_cache s1 s3.
Proof.
  unfold same_cache. intros H12 H23.
  repeat match goal with H : _ /\ _ |- _ => destruct H end.
  repeat split; congruence.
Qed.

Lemma keeps_cache_bind {A B} (c : M (MLP F) A) (k : A -> M (MLP F) B) :
  keeps_cache c -> (forall a, keeps_cache (k a)) -> keeps_cache (bind c k).
Proof.
  intros Hc Hk s. unfold bind. specialize (Hc s).
  destruct (c s) as [[e|a] s1]; simpl in *; [assumption|].
  eapply same_cache_trans; [eassumption | apply Hk].
Qed.

Lemma keeps_cache_read {A} (c : M (MLP F) A) :
  (forall s, snd (c s) = s) -> keeps_cache c.
Proof. intros Hc s. rewrite Hc. apply same_cache_refl. Qed.

Lemma keeps_cache_modify (g : MLP F -> MLP F) :
  (forall s, same_cache s (g s)) -> keeps_cache (modify g).
Proof. intros Hg s. apply Hg. Qed.

End ErrorPaths.

Ltac keeps_cache_steps :=
  lazymatch goal with
  | |- keeps_cache (bind _ _) =>
      apply keeps_cache_bind; [keeps_cache_steps | intros ?; keeps_cache_steps]
  | |- keeps_cache (attr _) => apply keeps_cache_read; reflexivity
  | |- keeps_cache (lift _) => apply keeps_cache_read; reflexivity
  | |- keeps_cache (getattr ?f) =>
      apply keeps_cache_read; intros ?; unfold getattr; destruct (f _);
      reflexivity
  | |- keeps_cache (gradient _) => apply keeps_cache_read; reflexivity
  | |- keeps_cache (set_gradient _ _) =>
      apply keeps_cache_modify; intros ?; repeat split
  | |- keeps_cache (modify _) =>
      apply keeps_cache_modify; intros ?; repeat split
  end.

(** Whatever its arguments and whether or not it raises, [backward] leaves
    the forward cache ([Z1], [A1], [Z2], [A2], [hidden_features]), the
    learning rate and the two activation attributes as they were. *)
Theorem backward_leaves_cache {F : Type} `{Float64Ops F}
    (X y : ndarray F) (s : MLP F) :
  let s' := snd (backward X y s) in
  Z1 s' = Z1 s /\ A1 s' = A1 s /\ Z2 s' = Z2 s /\ A2 s' = A2 s /\
  hidden_features s' = hidden_features s /\ lr s' = lr s /\
  activation_fn s' = activation_fn s /\
  activation_derivative s' = activation_derivative s.
Proof.
  cbv zeta. change (same_cache s (snd (backward X y s))).
  revert s. change (keeps_cache (backward X y)).
  unfold backward. cbv zeta. keeps_cache_steps.
Qed.

Lemma forward_wrong_columns_example :
  forward (NDArray 1 3 [Some 0%float; Some 0%float; Some 0%float])
    example_mlp =
  (inl ValueError, example_mlp).
Proof. apply forward_wrong_columns. simpl. lia. Defined.

Section OtherBatch.
Context {F : Type} `{Float64Ops F}.

Lemma broadcast_dim_none (m n : nat) :
  m <> n -> m <> 1 -> n <> 1 -> broadcast_dim m n = None.
Proof.
  intros H1 H2 H3. unfold broadcast_dim.
  destruct (Nat.eqb_spec m n); [contradiction|].
  destruct (Nat.eqb_spec m 1); [contradiction|].
  destruct (Nat.eqb_spec n 1); [contradiction|]. reflexivity.
Qed.

Lemma broadcast_dim_one_l (n : nat) : broadcast_dim 1 n = Some n.
Proof.
  unfold broadcast_dim. destruct (Nat.eqb_spec 1 n) as [<-|]; reflexivity.
Qed.

(** [backward] on a batch whose number of rows differs from that of the
    batch [forward] last ran on raises [ValueError] (from the subtraction
    [A2 - y] or from a matrix product).  The four parameters are not
    changed; unless the new batch has exactly one row, nothing at all is
    written. *)
Theorem backward_other_batch_size (d h o : nat) (s0 : MLP F)
    (X0 X y : ndarray F) :
  instance_ok d h o s0 -> ncols X0 = d ->
  shape y = (nrows X, o) -> nrows X <> nrows X0 ->
  let s := snd (forward X0 s0) in
  let r := backward X y s in
  fst r = inl ValueError /\
  W1 (snd r) = W1 s0 /\ b1 (snd r) = b1 s0 /\
  W2 (snd r) = W2 s0 /\ b2 (snd r) = b2 s0 /\
  (nrows X <> 1 -> snd r = s).
Proof.
  intros [Hs Hc] HX0 Hy Hm.
  destruct (configured_kernels Hc) as (k & k' & _ & Hk & Hk').
  cbv zeta. rewrite (@forward_run F _ d h o s0 X0 k Hs Hk HX0). cbn [snd].
  pose proof Hs as [S1 S2 S3 S4]. unfold shape in *.
  injection S1 as R1 C1. injection S3 as R3 C3. injection Hy as Ry Cy.
  set (z1 := affine X0 (W1 s0) (b1 s0)).
  set (a1 := amap k z1).
  set (z2 := affine a1 (W2 s0) (b2 s0)).
  set (a2 := amap sigmoid1 z2).
  set (s := cached s0 z1 a1 z2 a2).
  assert (EA2 : A2 s = Some a2) by reflexivity.
  assert (EA1 : A1 s = Some a1) by reflexivity.
  assert (EZ1 : Z1 s = Some z1) by reflexivity.
  destruct (Nat.eq_dec (nrows X) 1) as [M1 | M1].
  - (* one new row: the subtraction broadcasts, [Xᵀ @ dZ1] fails *)
    assert (E1 : sub a2 y = inr (tabulate (nrows X0) o (fun i j =>
                   f_sub a2.[bidx (nrows X0) i, bidx o j]
                         y.[bidx 1 i, bidx o j]))).
    { unfold sub, broadcast2. simpl nrows. simpl ncols.
      rewrite Ry, Cy, C3, M1, broadcast_dim_one_r, broadcast_dim_same.
      reflexivity. }
    set (dZ2 := tabulate (nrows X0) o _) in E1.
    destruct (grad_weights_ok a1 dZ2 (nrows X)) as (g2 & E2 & _);
      [reflexivity|].
    destruct (@hidden_delta_ok F _ dZ2 (W2 s0) z1 (activation_derivative s0) k')
      as (dA1 & d' & E3 & E4 & E5);
      [assumption | apply wf_tabulate | simpl; lia | reflexivity
       | simpl; lia |].
    assert (E6 : matmul (transpose X) (hidden_delta dZ2 (W2 s0) k' z1) =
                 inl ValueError).
    { apply matmul_error. simpl. lia. }
    unfold backward. cbv zeta.
    rewrite (step_getattr _ _ _ EA2), (step_lift _ _ E1).
    rewrite (step_getattr _ _ _ EA1), (step_lift _ _ E2).
    rewrite !step_set_gradient, step_attr. unfold s at 1, cached. attrs.
    rewrite (step_lift _ _ E3), step_attr. attrs.
    erewrite step_getattr by (attrs; reflexivity).
    rewrite (step_lift _ _ E4), (step_lift _ _ E5).
    rewrite (step_lift_raise _ _ E6). cbn [fst snd]. attrs.
    repeat (split; [reflexivity|]). intros Hne. contradiction.
  - destruct (Nat.eq_dec (nrows X0) 1) as [M0 | M0].
    + (* one cached row: the subtraction broadcasts, [A1ᵀ @ dZ2] fails *)
      assert (E1 : sub a2 y = inr (tabulate (nrows X) o (fun i j =>
                     f_sub a2.[bidx 1 i, bidx o j]
                           y.[bidx (nrows X) i, bidx o j]))).
      { unfold sub, broadcast2. simpl nrows. simpl ncols.
        rewrite Ry, Cy, C3, M0, broadcast_dim_one_l, broadcast_dim_same.
        reflexivity. }
      set (dZ2 := tabulate (nrows X) o _) in E1.
      assert (E2 : matmul (transpose a1) dZ2 = inl ValueError).
      { apply matmul_error. simpl. lia. }
      unfold backward. cbv zeta.
      rewrite (step_getattr _ _ _ EA2), (step_lift _ _ E1).
      rewrite (step_getattr _ _ _ EA1), (step_lift_raise _ _ E2).
      cbn [fst snd]. repeat (split; [reflexivity|]). reflexivity.
    + (* neither has one row: [A2 - y] fails *)
      assert (E1 : sub a2 y = inl ValueError).
      { unfold sub, broadcast2. simpl nrows.
        rewrite Ry, broadcast_dim_none by lia. reflexivity. }
      unfold backward. cbv zeta.
      rewrite (step_getattr _ _ _ EA2), (step_lift_raise _ _ E1).
      cbn [fst snd]. repeat (split; [reflexivity|]). reflexivity.
Qed.

End OtherBatch.

Lemma backward_other_batch_size_example :
  fst (backward
         (NDArray 3 2 [Some 0%float; Some 0%float; Some 0%float;
                       Some 0%float; Some 0%float; Some 0%float])
         (NDArray 3 1 [Some 0%float; Some 1%float; Some 0%float])
         (snd (forward example_X example_mlp))) =
  inl ValueError.
Proof.
  refine (proj1 (@backward_other_batch_size binary64 _ 2 3 1 example_mlp
                   example_X
                   (NDArray 3 2 [Some 0%float; Some 0%float; Some 0%float;
                                 Some 0%float; Some 0%float; Some 0%float])
                   (NDArray 3 1 [Some 0%float; Some 1%float; Some 0%float])
                   example_mlp_ok eq_refl eq_refl _)).
  simpl. lia.
Defined.

(** ** What backward reads from its batch *)

(** After [forward X0], [backward X1 y] with another batch [X1] of the same
    shape does not raise and does not notice: both deltas come from the
    cache of [X0].  With [a1], [a2] the activations [forward] cached for
    [X0], [dZ2 = a2 - y] and [dZ1 = (dZ2·W2ᵀ)] times the derivative of the
    configured activation at the cached [Z1 = X0·W1 + b1], the gradients of
    [W2], [b2] and [b1] are [a1ᵀ·dZ2 / m], column-sum([dZ2]) [/ m] and
    column-sum([dZ1]) [/ m], so [W2], [b2], [b1] and these gradients end up
    exactly as after [backward X0 y]; [X1] enters the gradient of [W1]
    only, which is [X1ᵀ·dZ1 / m] with that same [dZ1], where
    [backward X0 y] has [X0ᵀ·dZ1 / m], and [W1] is updated by it. *)
Theorem backward_reads_cache_not_batch {F : Type} `{Float64Ops F}
    (d h o : nat) (s0 : MLP F) (X0 X1 y : ndarray F) :
  instance_ok d h o s0 -> ncols X0 = d ->
  shape X1 = shape X0 -> shape y = (nrows X0, o) ->
  exists k k', kernel_pair k k' /\
    elementwise (activation_fn s0) k /\
    elementwise (activation_derivative s0) k' /\
    let m := nrows X0 in
    let z1 := affine X0 (W1 s0) (b1 s0) in
    let a1 := amap k z1 in
    let a2 := amap sigmoid1 (affine a1 (W2 s0) (b2 s0)) in
    let dZ2 := residual a2 y in
    let dZ1 := hidden_delta dZ2 (W2 s0) k' z1 in
    let s := snd (forward X0 s0) in
    let sa := snd (backward X1 y s) in
    let sb := snd (backward X0 y s) in
    Z1 s = Some z1 /\ A1 s = Some a1 /\ A2 s = Some a2 /\
    fst (backward X1 y s) = inr tt /\ fst (backward X0 y s) = inr tt /\
    W2 sa = W2 sb /\ b2 sa = b2 sb /\ b1 sa = b1 sb /\
    gradients sa !! "W2" = Some (grad_weights a1 dZ2 m) /\
    gradients sb !! "W2" = Some (grad_weights a1 dZ2 m) /\
    gradients sa !! "b2" = Some (grad_bias dZ2 m) /\
    gradients sb !! "b2" = Some (grad_bias dZ2 m) /\
    gradients sa !! "b1" = Some (grad_bias dZ1 m) /\
    gradients sb !! "b1" = Some (grad_bias dZ1 m) /\
    gradients sa !! "W1" = Some (grad_weights X1 dZ1 m) /\
    gradients sb !! "W1" = Some (grad_weights X0 dZ1 m) /\
    W1 sa = descent (lr s0) (W1 s0) (grad_weights X1 dZ1 m) /\
    W1 sb = descent (lr s0) (W1 s0) (grad_weights X0 dZ1 m).
Proof.
  intros [Hs Hc] HX0 HX1 Hy.
  destruct (configured_kernels Hc) as (k & k' & Hkk & Hk & Hk').
  exists k, k'. split; [exact Hkk|]. split; [exact Hk|]. split; [exact Hk'|].
  cbv zeta. rewrite (@forward_run F _ d h o s0 X0 k Hs Hk HX0). cbn [snd].
  pose proof Hs as [S1 S2 S3 S4]. unfold shape in *.
  injection S1 as R1 C1. injection S3 as R3 C3. injection HX1 as RX CX.
  set (z1 := affine X0 (W1 s0) (b1 s0)).
  set (a1 := amap k z1).
  set (z2 := affine a1 (W2 s0) (b2 s0)).
  set (a2 := amap sigmoid1 z2).
  assert (Hs' : shaped d h o (cached s0 z1 a1 z2 a2))
    by (destruct Hs; constructor; assumption).
  eassert (Ha : backward X1 y (cached s0 z1 a1 z2 a2) = _).
  { apply (@backward_run F _ d h o (nrows X0) (cached s0 z1 a1 z2 a2)
             X1 y z1 a1 a2 k' Hs' Hk'); try reflexivity.
    - apply wf_tabulate.
    - unfold shape; simpl. now rewrite C1.
    - unfold shape; simpl. now rewrite C1.
    - unfold shape; simpl. now rewrite C3.
    - unfold shape. now rewrite RX, CX, HX0.
    - exact Hy. }
  eassert (Hb : backward X0 y (cached s0 z1 a1 z2 a2) = _).
  { apply (@backward_run F _ d h o (nrows X0) (cached s0 z1 a1 z2 a2)
             X0 y z1 a1 a2 k' Hs' Hk'); try reflexivity.
    - apply wf_tabulate.
    - unfold shape; simpl. now rewrite C1.
    - unfold shape; simpl. now rewrite C1.
    - unfold shape; simpl. now rewrite C3.
    - unfold shape. now rewrite HX0.
    - exact Hy. }
  cbv zeta in Ha, Hb. rewrite Ha, Hb. cbn [fst snd].
  unfold updated, cached. attrs.
  repeat (split; [reflexivity|]).
  assert (L : forall (g : gmap string (ndarray F)) n v,
            <[n := v]> g !! n = Some v) by (intros; apply lookup_insert_eq).
  split; [now rewrite !lookup_insert_ne by done|].
  split; [now rewrite !lookup_insert_ne by done|].
  split; [now rewrite !lookup_insert_ne by done|].
  split; [now rewrite !lookup_insert_ne by done|].
  split; [now rewrite L|]. split; [now rewrite L|].
  split; [now rewrite lookup_insert_ne by done|].
  split; [now rewrite lookup_insert_ne by done|].
  split; reflexivity.
Qed.

Lemma backward_reads_cache_not_batch_example :
  W2 (snd (backward
             (NDArray 2 2 [Some 1%float; Some 1%float;
                           Some 1%float; Some 1%float])
             example_y (snd (forward example_X example_mlp)))) =
  W2 (snd (backward example_X example_y
             (snd (forward example_X example_mlp)))).
Proof.
  destruct (@backward_reads_cache_not_batch binary64 _ 2 3 1 example_mlp
              example_X
              (NDArray 2 2 [Some 1%float; Some 1%float;
                            Some 1%float; Some 1%float])
              example_y example_mlp_ok eq_refl eq_refl eq_refl)
    as (k & k' & _ & _ & _ & E).
  cbv zeta in E.
  exact (proj1 (proj2 (proj2 (proj2 (proj2 (proj2 E)))))).
Defined.

(** ** The training rounds of update *)

Section Training.
Context {F : Type} `{Float64Ops F}.

(** [for _ in range(n): mlp.forward(X); mlp.backward(X, y)], the loop of
    [update], which runs it with [n = 10]. *)
Fixpoint training_steps (n : nat) (X y : ndarray F) : M (MLP F) unit :=
  match n with
  | O => ret tt
  | S k => do forward X then do backward X y then training_steps k X y
  end.

Lemma bind_assoc {S A B C} (c : M S A) (k : A -> M S B) (k' : B -> M S C)
    (s : S) :
  bind (bind c k) k' s = bind c (fun a => bind (k a) k') s.
Proof.
  unfold bind. destruct (c s) as [[e|a] s1]; reflexivity.
Qed.

Lemma bind_outcome {S A B} (c : M S A) (k : A -> M S B) (s s1 : S) (a : A) :
  c s = (inr a, s1) -> bind c k s = k a s1.
Proof. intros E. unfold bind. now rewrite E. Qed.

Lemma bind_same_outcome {S A B} (c : M S A) (k k' : A -> M S B) (s s1 : S)
    (a : A) :
  c s = (inr a, s1) -> k a s1 = k' a s1 -> bind c k s = bind c k' s.
Proof. intros E E'. unfold bind. now rewrite E. Qed.

Lemma bind_same_head {S A B} (c c' : M S A) (k : A -> M S B) (s : S) :
  c s = c' s -> bind c k s = bind c' k s.
Proof. intros E. unfold bind. now rewrite E. Qed.

(** What one round leaves: the instance of one [forward] and one
    [backward], written out. *)
Lemma round_run (d h o : nat) (s : MLP F) (X y : ndarray F) :
  instance_ok d h o s -> ncols X = d -> shape y = (nrows X, o) ->
  exists k k' s1,
    kernel_pair k k' /\
    bind (forward X) (fun _ => backward X y) s = (inr tt, s1) /\
    instance_ok d h o s1 /\
    lr s1 = lr s /\ activation_fn s1 = activation_fn s /\
    activation_derivative s1 = activation_derivative s /\
    let z1 := affine X (W1 s) (b1 s) in
    let a1 := amap k z1 in
    let a2 := amap sigmoid1 (affine a1 (W2 s) (b2 s)) in
    let dZ1 := hidden_delta (residual a2 y) (W2 s) k' z1 in
    A1 s1 = Some a1 /\ hidden_features s1 = Some a1 /\ A2 s1 = Some a2 /\
    gradients s1 !! "W1" = Some (grad_weights X dZ1 (nrows X)).
Proof.
  intros [Hs Hc] HX Hy.
  destruct (configured_kernels Hc) as (k & k' & Hkk & Hk & Hk').
  pose proof (@forward_run F _ d h o s X k Hs Hk HX) as Hf. cbv zeta in Hf.
  pose proof Hs as [S1 S2 S3 S4]. unfold shape in S1, S2, S3, S4.
  injection S1 as R1 C1. injection S2 as R2 C2.
  injection S3 as R3 C3. injection S4 as R4 C4.
  set (z1 := affine X (W1 s) (b1 s)) in *.
  set (a1 := amap k z1) in *.
  set (z2 := affine a1 (W2 s) (b2 s)) in *.
  set (a2 := amap sigmoid1 z2) in *.
  assert (Hs' : shaped d h o (cached s z1 a1 z2 a2))
    by (destruct Hs; constructor; assumption).
  eassert (Hb : backward X y (cached s z1 a1 z2 a2) = _).
  { apply (@backward_run F _ d h o (nrows X) (cached s z1 a1 z2 a2)
             X y z1 a1 a2 k' Hs' Hk'); try reflexivity.
    - apply wf_tabulate.
    - unfold shape; simpl. now rewrite C1.
    - unfold shape; simpl. now rewrite C1.
    - unfold shape; simpl. now rewrite C3.
    - unfold shape. now rewrite HX.
    - exact Hy. }
  cbv zeta in Hb.
  exists k, k'. eexists. split; [exact Hkk|].
  split; [erewrite bind_outcome; [exact Hb | exact Hf]|].
  unfold updated, cached. attrs.
  split.
  { split.
    - constructor; unfold shape; attrs; simpl; congruence.
    - destruct Hc as (name & fn & fn' & L1 & L2 & E1 & E2).
      exists name, fn, fn'. repeat split; assumption. }
  repeat (split; [reflexivity|]).
  now rewrite lookup_insert_ne by done; rewrite lookup_insert_eq.
Qed.

(** Rounds in succession never raise, keep the instance well shaped and do
    not touch the learning rate or the activation attributes. *)
Lemma training_steps_ok (d h o n : nat) (s : MLP F) (X y : ndarray F) :
  instance_ok d h o s -> ncols X = d -> shape y = (nrows X, o) ->
  exists s', training_steps n X y s = (inr tt, s') /\ instance_ok d h o s' /\
             lr s' = lr s /\ activation_fn s' = activation_fn s /\
             activation_derivative s' = activation_derivative s.
Proof.
  intros Hs HX Hy. revert s Hs.
  induction n as [|n IH]; intros s Hs.
  - exists s. repeat split; solve [reflexivity | apply Hs].
  - edestruct round_run as (k & k' & s1 & _ & Hr & Hs1 & L1 & L2 & L3 & _);
      [exact Hs | exact HX | exact Hy |].
    destruct (IH s1 Hs1) as (s' & Hrun & Hs' & M1 & M2 & M3).
    exists s'. split; [|repeat split; solve [apply Hs' | congruence]].
    cbn [training_steps]. rewrite <- bind_assoc.
    erewrite bind_outcome; [exact Hrun | exact Hr].
Qed.

(** A forward pass overwrites the whole cache: what an earlier forward pass
    on another batch left in it is gone. *)
Lemma forward_after_forward (d h o : nat) (s : MLP F) (G X : ndarray F) :
  instance_ok d h o s -> ncols G = d -> ncols X = d ->
  bind (forward G) (fun _ => forward X) s = forward X s.
Proof.
  intros [Hs Hc] HG HX.
  destruct (configured_kernels Hc) as (k & k' & Hkk & Hk & Hk').
  pose proof (@forward_run F _ d h o s G k Hs Hk HG) as Hg. cbv zeta in Hg.
  erewrite bind_outcome; [|exact Hg].
  rewrite (@forward_run F _ d h o s X k Hs Hk HX).
  erewrite (@forward_run F _ d h o _ X k); [reflexivity | | exact Hk | exact HX].
  destruct Hs; constructor; assumption.
Qed.

Lemma training_steps_add (a b : nat) (X y : ndarray F) (s : MLP F) :
  training_steps (a + b) X y s =
  bind (training_steps a X y) (fun _ => training_steps b X y) s.
Proof.
  revert s. induction a as [|a IH]; intros s; [reflexivity|].
  cbn [training_steps Nat.add]. unfold bind.
  destruct (forward X s) as [[e|r] s1]; [reflexivity|].
  destruct (backward X y s1) as [[e|[]] s2]; [reflexivity|].
  rewrite IH. reflexivity.
Qed.

End Training.

(** After one round or more, [update] finds what it reads.  From an
    instance as [__init__] builds it, and a batch [X] of [d] columns with
    labels of shape [(m, o)], the loop
    [for _ in range(n + 1): mlp.forward(X); mlp.backward(X, y)] never
    raises; it keeps the shapes of the parameters, the learning rate and the
    activation; and it leaves [hidden_features], the same array as [A1], of
    shape [(m, h)], and [gradients["W1"]] of shape [(d, h)], the two values
    [update] reads after its loop. *)
Theorem training_loop_leaves_reads {F : Type} `{Float64Ops F}
    (d h o n : nat) (s : MLP F) (X y : ndarray F) :
  instance_ok d h o s -> ncols X = d -> shape y = (nrows X, o) ->
  exists s' a g,
    training_steps (S n) X y s = (inr tt, s') /\
    instance_ok d h o s' /\ lr s' = lr s /\
    activation_fn s' = activation_fn s /\
    activation_derivative s' = activation_derivative s /\
    hidden_features s' = Some a /\ A1 s' = Some a /\
    shape a = (nrows X, h) /\
    gradients s' !! "W1" = Some g /\ shape g = (d, h).
Proof.
  intros Hs HX Hy.
  destruct (@training_steps_ok F _ d h o n s X y Hs HX Hy)
    as (s1 & Hrun & Hs1 & L1 & L2 & L3).
  destruct (@round_run F _ d h o s1 X y Hs1 HX Hy)
    as (k & k' & s2 & _ & Hr & Hs2 & M1 & M2 & M3 & Hrest).
  cbv zeta in Hrest. destruct Hrest as (Ea & Eh & _ & Eg).
  exists s2. eexists. eexists.
  split.
  { replace (S n) with (n + 1) by lia. rewrite training_steps_add.
    erewrite bind_outcome; [|exact Hrun].
    cbn [training_steps]. rewrite <- bind_assoc.
    erewrite bind_outcome; [reflexivity | exact Hr]. }
  split; [exact Hs2|].
  split; [rewrite M1; exact L1|]. split; [rewrite M2; exact L2|].
  split; [rewrite M3; exact L3|].
  split; [exact Eh|]. split; [exact Ea|].
  split.
  { destruct Hs1 as [[S1 _ _ _] _]. unfold shape in *.
    injection S1 as _ C1. simpl. now rewrite C1. }
  split; [exact Eg|].
  destruct Hs1 as [[_ _ S3 _] _]. unfold shape in *.
  injection S3 as R3 _. simpl. now rewrite HX, R3.
Qed.

Lemma training_loop_leaves_reads_example :
  exists s' a g,
    training_steps 1 example_X example_y example_mlp = (inr tt, s') /\
    instance_ok 2 3 1 s' /\ lr s' = lr example_mlp /\
    activation_fn s' = activation_fn example_mlp /\
    activation_derivative s' = activation_derivative example_mlp /\
    hidden_features s' = Some a /\ A1 s' = Some a /\
    shape a = (nrows example_X, 3) /\
    gradients s' !! "W1" = Some g /\ shape g = (2, 3).
Proof.
  exact (@training_loop_leaves_reads binary64 _ 2 3 1 0 example_mlp
           example_X example_y example_mlp_ok eq_refl eq_refl).
Defined.

(** The forward pass [update] makes on its grid between two runs of the
    loop does not disturb the training.  With [a] rounds before it and at
    least one after it, the instance at the end, cache and gradients
    included, is the one that the same number of rounds leaves without that
    pass: each round starts with a forward pass on the batch, which
    overwrites everything the pass on the grid cached.  The grid only needs
    the [d] columns [forward] asks for. *)
Theorem grid_forward_between_rounds {F : Type} `{Float64Ops F}
    (d h o a b : nat) (s : MLP F) (X y grid : ndarray F) :
  instance_ok d h o s -> ncols X = d -> shape y = (nrows X, o) ->
  ncols grid = d ->
  bind (training_steps a X y)
    (fun _ => bind (forward grid) (fun _ => training_steps (S b) X y)) s =
  training_steps (a + S b) X y s.
Proof.
  intros Hs HX Hy HG.
  destruct (@training_steps_ok F _ d h o a s X y Hs HX Hy)
    as (s1 & Hrun & Hs1 & _).
  rewrite training_steps_add.
  eapply bind_same_outcome; [exact Hrun|].
  cbn [training_steps]. rewrite <- bind_assoc.
  apply bind_same_head.
  exact (@forward_after_forward F _ d h o s1 grid X Hs1 HG HX).
Qed.

Lemma grid_forward_between_rounds_example :
  bind (training_steps 1 example_X example_y)
    (fun _ => bind (forward (NDArray 1 2 [Some 1%float; Some 1%float]))
                (fun _ => training_steps 1 example_X example_y))
    example_mlp =
  training_steps 2 example_X example_y example_mlp.
Proof.
  exact (@grid_forward_between_rounds binary64 _ 2 3 1 1 0 example_mlp
           example_X example_y (NDArray 1 2 [Some 1%float; Some 1%float])
           example_mlp_ok eq_refl eq_refl eq_refl).
Defined.

(** ** The seed shared by the weights and the data *)

Section SharedSeed.
Context {F G : Type} `{Float64Ops F} `{RandomState F G}.

Lemma draws_add (a b : nat) (g : G) :
  draws (a + b) g =
  ((fst (draws a g) ++ fst (draws b (snd (draws a g))))%list,
   snd (draws b (snd (draws a g)))).
Proof.
  revert g. induction a as [|a IH]; intros g; simpl.
  - now destruct (draws b g).
  - destruct (rs_normal g) as [x g1]. rewrite IH.
    destruct (draws a g1) as [xs g2]. reflexivity.
Qed.

End SharedSeed.

(** [MLP.__init__] and [generate_data] both start with [np.random.seed(0)],
    so they read the same stream of draws.  Whenever the constructor
    succeeds and the data has at least as many entries as the two weight
    matrices, [W1] is one tenth of the first [d·h] entries of [X], read row
    by row, and [W2] one tenth of the next [h·o] entries: the initial
    weights are a rescaled copy of the first data points, whatever the
    generator was doing before either call. *)
Theorem weights_share_draws_with_data {F G : Type} `{Float64Ops F}
    `{RandomState F G} (d h o n : nat) (l : F) (name : string)
    (g g1 g' g2 : G) (s : MLP F) (X : ndarray F) (y : ndarray Z) :
  MLP_init d h o l name g = (inr s, g1) ->
  generate_data n g' = (inr (X, y), g2) ->
  d * h + h * o <= n * 2 ->
  data (W1 s) = map (fun v => f_mul v f_tenth) (take (d * h) (data X)) /\
  data (W2 s) =
    map (fun v => f_mul v f_tenth) (take (h * o) (drop (d * h) (data X))).
Proof.
  intros Hinit Hdata Hle.
  rewrite MLP_init_run in Hinit.
  destruct (activation_fns !! name) as [fn|]; [|discriminate].
  destruct (activation_derivatives !! name) as [fn'|]; [|discriminate].
  injection Hinit as <- _.
  rewrite generate_data_run in Hdata. cbv zeta in Hdata.
  injection Hdata as <- _ _.
  replace (n * 2) with (d * h + (h * o + (n * 2 - d * h - h * o))) by lia.
  rewrite !draws_add. unfold fresh, times, amap. cbn [W1 W2 data fst snd].
  pose proof (length_draws (d * h) (rs_seed 0)) as L1.
  pose proof (length_draws (h * o) (snd (draws (d * h) (rs_seed 0)))) as L2.
  split.
  - now rewrite take_app_length' by (symmetry; exact L1).
  - rewrite drop_app_length' by (symmetry; exact L1).
    now rewrite take_app_length' by (symmetry; exact L2).
Qed.

Lemma weights_share_draws_with_data_example :
  data (W1 example_mlp) =
    map (fun v => f_mul v f_tenth)
      (take (2 * 3) (data (NDArray 5 2 (repeat (Some 1%float) 10)))) /\
  data (W2 example_mlp) =
    map (fun v => f_mul v f_tenth)
      (take (3 * 1) (drop (2 * 3)
                       (data (NDArray 5 2 (repeat (Some 1%float) 10))))).
Proof.
  refine (@weights_share_draws_with_data binary64 unit _ _ 2 3 1 5
            (Some 0x1.47ae147ae147bp-7%float) "tanh" tt tt tt tt example_mlp
            (NDArray 5 2 (repeat (Some 1%float) 10))
            (NDArray 5 1 (repeat 1%Z 5)) example_mlp_init _ _).
  - vm_compute. reflexivity.
  - vm_compute. lia.
Defined.
